(** * Bracket-balance checkers: a shallow embedding and its properties

    The repository holds four Python scripts that check JavaScript and
    TypeScript files for balanced brackets:

    - [check_brackets.py]: raw counts ([count_brackets]) and a positional
      scan with one stack per bracket family
      ([find_bracket_position_issues]);
    - [archived/.../detailed_bracket_check.py]: a positional scan with one
      combined stack ([analyze_bracket_structure]);
    - [archived/.../final_bracket_check.py]: raw counts, informational
      patterns and the process exit status ([check_file_detailed], [main]);
    - [archived/.../bracket_check.py]: raw counts only (a subset of the
      previous one, not modelled).

    Python values are modelled as follows.  A [str] is the list of its
    Unicode code points; an [int] used as a length, an index or a tally
    is a [nat] (a difference of tallies is a [Z]); a Python list is a
    list whose last element is the one [append] added and [pop] removes;
    a raised exception is [Raise e] in the monad [result], [e] being the
    text [str(e)] that the handlers print. *)

From Stdlib Require Import List String Ascii NArith ZArith Arith Bool Lia.
From Stdlib Require Import DecimalString Sorted.
Import ListNotations.

Set Implicit Arguments.

(** ** Python strings, exceptions and text files *)

Module Py.

Definition char := N.
Definition str := list char.

Definition chr (a : ascii) : char := N_of_ascii a.

(** A string literal of the source. *)
Definition lit (s : string) : str := map chr (list_ascii_of_string s).

Definition LPAREN : char := 40%N.
Definition RPAREN : char := 41%N.
Definition LBRACKET : char := 91%N.
Definition RBRACKET : char := 93%N.
Definition LBRACE : char := 123%N.
Definition RBRACE : char := 125%N.
Definition BACKTICK : char := 96%N.
Definition NEWLINE : char := 10%N.
Definition QUOTE : char := 39%N.
Definition DQUOTE : char := 34%N.
Definition BACKSLASH : char := 92%N.

(** [s.count(c)] for a one-character [c]. *)
Fixpoint count (c : char) (s : str) : nat :=
  match s with
  | [] => 0
  | x :: s' => (if N.eqb x c then 1 else 0) + count c s'
  end.

(** [s.count(a + b)] for a two-character argument with [a <> b]:
    occurrences are counted left to right without overlap. *)
Fixpoint count2 (a b : char) (s : str) : nat :=
  match s with
  | [] => 0
  | x :: s' =>
      match s' with
      | [] => 0
      | y :: s'' =>
          if N.eqb x a && N.eqb y b then S (count2 a b s'') else count2 a b s'
      end
  end.

(** [c in s] for a one-character [c]. *)
Definition contains (c : char) (s : str) : bool := existsb (N.eqb c) s.

(** [str(n)] and the [{n}] of an f-string. *)
Definition dec (n : nat) : str := lit (NilEmpty.string_of_uint (Nat.to_uint n)).

(** The characters [str.strip()] removes. *)
Definition isspace (c : char) : bool :=
  ((9 <=? c) && (c <=? 13) || (28 <=? c) && (c <=? 32)
   || (c =? 133) || (c =? 160) || (c =? 5760)
   || (8192 <=? c) && (c <=? 8202)
   || (c =? 8232) || (c =? 8233) || (c =? 8239) || (c =? 8287)
   || (c =? 12288))%N.

Fixpoint lstrip (s : str) : str :=
  match s with
  | [] => []
  | c :: s' => if isspace c then lstrip s' else s
  end.

Definition strip (s : str) : str := rev (lstrip (rev (lstrip s))).

(** [f.readlines()] on a text file opened with universal newlines: the
    text is cut after every newline, which stays at the end of its
    line; a last line without newline is kept, an empty rest is not. *)
Fixpoint readlines (s : str) : list str :=
  match s with
  | [] => []
  | c :: s' =>
      if N.eqb c NEWLINE then [c] :: readlines s'
      else match readlines s' with
           | [] => [[c]]
           | l :: ls => (c :: l) :: ls
           end
  end.

(** [s.split('\n')]: the pieces between newlines, at least one. *)
Fixpoint split_lines (s : str) : list str :=
  match s with
  | [] => [[]]
  | c :: s' =>
      if N.eqb c NEWLINE then [] :: split_lines s'
      else match split_lines s' with
           | [] => [[c]]
           | l :: ls => (c :: l) :: ls
           end
  end.

(** The outcome of a computation that may raise: [Raise e] carries
    [str(e)]. *)
Inductive result (A : Type) : Type :=
| Return (a : A)
| Raise (e : str).
Arguments Return {A} a.
Arguments Raise {A} e.

Definition bind {A B} (m : result A) (k : A -> result B) : result B :=
  match m with
  | Return a => k a
  | Raise e => Raise e
  end.

(** [l.pop()] *)
Definition pop {A} (l : list A) : result (list A) :=
  match l with
  | [] => Raise (lit "pop from empty list")
  | _ => Return (removelast l)
  end.

(** [l[-1]] *)
Definition peek {A} (l : list A) : result A :=
  match rev l with
  | [] => Raise (lit "list index out of range")
  | x :: _ => Return x
  end.

(** [s[i]] for a string [s]. *)
Definition str_getitem (s : str) (i : nat) : result char :=
  match nth_error s i with
  | Some c => Return c
  | None => Raise (lit "string index out of range")
  end.

(** [s[i]] for a set display [s]: sets have no subscript. *)
Definition set_getitem (s : list char) (i : nat) : result char :=
  Raise (lit "'set' object is not subscriptable").

(** What [open(path, 'r', encoding='utf-8')] followed by [f.read()] or
    [f.readlines()] finds: the decoded text, or the I/O or decoding
    exception. *)
Definition path := str.
Definition filesystem := path -> result str.

End Py.

Declare Scope py_scope.
Delimit Scope py_scope with py.
Notation "x <- m ;; k" := (Py.bind m (fun x => k))
  (at level 61, m at next level, right associativity) : py_scope.

Local Open Scope py_scope.
Local Open Scope list_scope.

(** ** check_brackets.py *)

Module CheckBrackets.
Import Py.

(** *** [count_brackets] *)

(** The seven tallies taken at the start of [count_brackets]. *)
Record tallies := {
  round_open : nat;
  round_close : nat;
  square_open : nat;
  square_close : nat;
  curly_open : nat;
  curly_close : nat;
  backticks : nat
}.

Definition tally (content : str) : tallies :=
  {| round_open := count LPAREN content;
     round_close := count RPAREN content;
     square_open := count LBRACKET content;
     square_close := count RBRACKET content;
     curly_open := count LBRACE content;
     curly_close := count RBRACE content;
     backticks := count BACKTICK content |}.

(** The body of [count_brackets] after the file was read: one message
    per family whose tallies differ, one for an odd backtick tally. *)
Definition count_issues (t : tallies) : list str :=
  (if Nat.eqb (round_open t) (round_close t) then []
   else [lit "ROUND BRACKETS: " ++ dec (round_open t) ++ lit " open, "
           ++ dec (round_close t) ++ lit " close"])
  ++ (if Nat.eqb (square_open t) (square_close t) then []
      else [lit "SQUARE BRACKETS: " ++ dec (square_open t) ++ lit " open, "
              ++ dec (square_close t) ++ lit " close"])
  ++ (if Nat.eqb (curly_open t) (curly_close t) then []
      else [lit "CURLY BRACKETS: " ++ dec (curly_open t) ++ lit " open, "
              ++ dec (curly_close t) ++ lit " close"])
  ++ (if Nat.eqb (backticks t mod 2) 0 then []
      else [lit "BACKTICKS: " ++ dec (backticks t) ++ lit " (odd number)"]).

(** [count_brackets(file_path)], given what reading the file yields.
    The [except Exception] clause turns any exception into a one-element
    list. *)
Definition count_brackets (file : result str) : list str :=
  match (content <- file ;; Return (count_issues (tally content))) with
  | Return issues => issues
  | Raise e => [lit "ERROR reading file: " ++ e]
  end.

(** *** [find_bracket_position_issues] *)

(** A stack entry: [(line_num, char_pos)]. *)
Definition position := (nat * nat)%type.

(** The two message shapes of the positional scan.  A message is kept
    as its fields; [format_issue] gives the string the source builds. *)
Inductive issue_kind := Unmatched_closing | Unclosed_opening.

Record position_issue := {
  issue_line : nat;
  issue_pos : nat;
  issue_kind_of : issue_kind;
  issue_char : char
}.

Definition format_issue (i : position_issue) : str :=
  lit "Line " ++ dec (issue_line i) ++ lit ", pos " ++ dec (issue_pos i)
  ++ lit ": "
  ++ match issue_kind_of i with
     | Unmatched_closing => lit "Unmatched closing "
     | Unclosed_opening => lit "Unclosed opening "
     end
  ++ [issue_char i].

(** The four lists the scan updates. *)
Record scan_state := {
  bracket_issues : list position_issue;
  round_stack : list position;
  square_stack : list position;
  curly_stack : list position
}.

Definition initial : scan_state :=
  {| bracket_issues := []; round_stack := []; square_stack := [];
     curly_stack := [] |}.

Definition unmatched (line_num char_pos : nat) (c : char) : position_issue :=
  {| issue_line := line_num; issue_pos := char_pos;
     issue_kind_of := Unmatched_closing; issue_char := c |}.

Definition unclosed (c : char) (p : position) : position_issue :=
  {| issue_line := fst p; issue_pos := snd p;
     issue_kind_of := Unclosed_opening; issue_char := c |}.

Definition set_round (st : scan_state) (s : list position) : scan_state :=
  {| bracket_issues := bracket_issues st; round_stack := s;
     square_stack := square_stack st; curly_stack := curly_stack st |}.

Definition set_square (st : scan_state) (s : list position) : scan_state :=
  {| bracket_issues := bracket_issues st; round_stack := round_stack st;
     square_stack := s; curly_stack := curly_stack st |}.

Definition set_curly (st : scan_state) (s : list position) : scan_state :=
  {| bracket_issues := bracket_issues st; round_stack := round_stack st;
     square_stack := square_stack st; curly_stack := s |}.

Definition add_issue (st : scan_state) (i : position_issue) : scan_state :=
  {| bracket_issues := bracket_issues st ++ [i];
     round_stack := round_stack st; square_stack := square_stack st;
     curly_stack := curly_stack st |}.

Definition nonempty {A} (l : list A) : bool :=
  match l with [] => false | _ => true end.

(** The body of the inner loop: the [if]/[elif] chain on [char]. *)
Definition scan_char (line_num char_pos : nat) (c : char) (st : scan_state)
  : result scan_state :=
  if N.eqb c LPAREN then
    Return (set_round st (round_stack st ++ [(line_num, char_pos)]))
  else if N.eqb c RPAREN then
    if nonempty (round_stack st) then
      s <- pop (round_stack st) ;; Return (set_round st s)
    else Return (add_issue st (unmatched line_num char_pos RPAREN))
  else if N.eqb c LBRACKET then
    Return (set_square st (square_stack st ++ [(line_num, char_pos)]))
  else if N.eqb c RBRACKET then
    if nonempty (square_stack st) then
      s <- pop (square_stack st) ;; Return (set_square st s)
    else Return (add_issue st (unmatched line_num char_pos RBRACKET))
  else if N.eqb c LBRACE then
    Return (set_curly st (curly_stack st ++ [(line_num, char_pos)]))
  else if N.eqb c RBRACE then
    if nonempty (curly_stack st) then
      s <- pop (curly_stack st) ;; Return (set_curly st s)
    else Return (add_issue st (unmatched line_num char_pos RBRACE))
  else Return st.

(** [for char_pos, char in enumerate(line)], from index [char_pos] on. *)
Fixpoint scan_line (line_num char_pos : nat) (line : str) (st : scan_state)
  : result scan_state :=
  match line with
  | [] => Return st
  | c :: line' =>
      st' <- scan_char line_num char_pos c st ;;
      scan_line line_num (S char_pos) line' st'
  end.

(** [for line_num, line in enumerate(lines, 1)], from number [line_num]
    on. *)
Fixpoint scan_lines (line_num : nat) (lines : list str) (st : scan_state)
  : result scan_state :=
  match lines with
  | [] => Return st
  | line :: lines' =>
      st' <- scan_line line_num 0 line st ;;
      scan_lines (S line_num) lines' st'
  end.

(** The state when the two nested loops are over. *)
Definition scan (content : str) : result scan_state :=
  scan_lines 1 (readlines content) initial.

(** The three closing loops: what is left on the round stack, then on
    the square stack, then on the curly stack. *)
Definition report (st : scan_state) : list position_issue :=
  bracket_issues st
  ++ map (unclosed LPAREN) (round_stack st)
  ++ map (unclosed LBRACKET) (square_stack st)
  ++ map (unclosed LBRACE) (curly_stack st).

(** The [try] block after the file was read. *)
Definition position_issues (content : str) : result (list position_issue) :=
  st <- scan content ;; Return (report st).

(** [find_bracket_position_issues(file_path)], given what reading the
    file yields. *)
Definition find_bracket_position_issues (file : result str) : list str :=
  match (content <- file ;; position_issues content) with
  | Return issues => map format_issue issues
  | Raise e => [lit "ERROR: " ++ e]
  end.

(** *** The loop over [target_files] *)

Record file_issues := {
  basic : list str;
  positions : list str
}.

(** The headline printed for a file. *)
Inductive headline := PROBLEME | OK.

Record run_state := {
  problems_found : bool;
  detailed_issues : list (path * file_issues);
  printed : list (path * headline)
}.

Fixpoint str_eqb (a b : str) : bool :=
  match a, b with
  | [], [] => true
  | x :: a', y :: b' => N.eqb x y && str_eqb a' b'
  | _, _ => false
  end.

(** [d[k] = v] on a dictionary kept in insertion order. *)
Fixpoint dict_set {V} (k : str) (v : V) (d : list (str * V))
  : list (str * V) :=
  match d with
  | [] => [(k, v)]
  | (k', v') :: d' =>
      if str_eqb k k' then (k, v) :: d' else (k', v') :: dict_set k v d'
  end.

Definition check_file (fs : filesystem) (st : run_state) (file_path : path)
  : run_state :=
  let basic_issues := count_brackets (fs file_path) in
  let position_issues := find_bracket_position_issues (fs file_path) in
  if nonempty basic_issues || nonempty position_issues then
    {| problems_found := true;
       detailed_issues :=
         dict_set file_path
           {| basic := basic_issues; positions := position_issues |}
           (detailed_issues st);
       printed := printed st ++ [(file_path, PROBLEME)] |}
  else
    {| problems_found := problems_found st;
       detailed_issues := detailed_issues st;
       printed := printed st ++ [(file_path, OK)] |}.

Definition run (fs : filesystem) (target_files : list path) : run_state :=
  fold_left (check_file fs) target_files
    {| problems_found := false; detailed_issues := []; printed := [] |}.

End CheckBrackets.

(** ** archived/unused-scripts/bracket-checkers/detailed_bracket_check.py *)

Module DetailedBracketCheck.
Import Py.

(** An entry of [bracket_stack]. *)
Record open_bracket := {
  ob_char : char;
  ob_line : nat;
  ob_pos : nat;
  ob_context : str
}.

(** The ['line'] and ['pos'] fields hold a number, or a word such as
    ['N/A']. *)
Inductive cell := Num (n : nat) | Word (s : str).

(** An entry of [line_issues]. *)
Record line_issue := {
  li_line : cell;
  li_pos : cell;
  li_issue : str;
  li_context : str
}.

Record scan_state := {
  bracket_stack : list open_bracket;
  line_issues : list line_issue
}.

Definition initial : scan_state :=
  {| bracket_stack := []; line_issues := [] |}.

(** [line.strip()[:50] + '...' if len(line.strip()) > 50 else line.strip()] *)
Definition context_of (line : str) : str :=
  if Nat.ltb 50 (List.length (strip line)) then firstn 50 (strip line) ++ lit "..."
  else strip line.

(** [{')': 0, ']': 1, '}': 2}[char]] *)
Definition closer_index (c : char) : result nat :=
  if N.eqb c RPAREN then Return 0
  else if N.eqb c RBRACKET then Return 1
  else if N.eqb c RBRACE then Return 2
  else Raise (lit "'" ++ [c] ++ lit "'").

Definition push (st : scan_state) (b : open_bracket) : scan_state :=
  {| bracket_stack := bracket_stack st ++ [b];
     line_issues := line_issues st |}.

Definition set_stack (st : scan_state) (s : list open_bracket) : scan_state :=
  {| bracket_stack := s; line_issues := line_issues st |}.

Definition add_issue (st : scan_state) (i : line_issue) : scan_state :=
  {| bracket_stack := bracket_stack st;
     line_issues := line_issues st ++ [i] |}.

Definition is_empty {A} (l : list A) : bool :=
  match l with [] => true | _ => false end.

(** The body of the inner loop.  The first statement of the closing
    branch subscripts a set display. *)
Definition scan_char (line_num : nat) (line : str) (char_pos : nat)
    (c : char) (st : scan_state) : result scan_state :=
  if contains c (lit "([{") then
    Return (push st {| ob_char := c; ob_line := line_num; ob_pos := char_pos;
                       ob_context := context_of line |})
  else if contains c (lit ")]}") then
    i <- closer_index c ;;
    expected <- set_getitem [RPAREN; RBRACKET; RBRACE] i ;;
    j <- closer_index c ;;
    expected_open <- str_getitem (lit "([{") j ;;
    if is_empty (bracket_stack st) then
      Return (add_issue st
                {| li_line := Num line_num; li_pos := Num char_pos;
                   li_issue := lit "Unmatched closing " ++ [c];
                   li_context := strip line |})
    else
      last_open <- peek (bracket_stack st) ;;
      if N.eqb (ob_char last_open) expected_open then
        s <- pop (bracket_stack st) ;; Return (set_stack st s)
      else
        let st' :=
          add_issue st
            {| li_line := Num line_num; li_pos := Num char_pos;
               li_issue :=
                 lit "Mismatched brackets: expected closing for "
                 ++ [ob_char last_open] ++ lit " from line "
                 ++ dec (ob_line last_open) ++ lit ", got " ++ [c];
               li_context := strip line |} in
        s <- pop (bracket_stack st') ;; Return (set_stack st' s)
  else Return st.

(** [for char_pos, char in enumerate(line)], from index [char_pos] on;
    [rest] is what is left of [line]. *)
Fixpoint scan_line (line_num : nat) (line : str) (char_pos : nat) (rest : str)
    (st : scan_state) : result scan_state :=
  match rest with
  | [] => Return st
  | c :: rest' =>
      st' <- scan_char line_num line char_pos c st ;;
      scan_line line_num line (S char_pos) rest' st'
  end.

Fixpoint scan_lines (line_num : nat) (lines : list str) (st : scan_state)
  : result scan_state :=
  match lines with
  | [] => Return st
  | line :: lines' =>
      st' <- scan_line line_num line 0 line st ;;
      scan_lines (S line_num) lines' st'
  end.

Definition unclosed_issue (b : open_bracket) : line_issue :=
  {| li_line := Num (ob_line b); li_pos := Num (ob_pos b);
     li_issue := lit "Unclosed " ++ [ob_char b];
     li_context := ob_context b |}.

Definition backtick_issue (backtick_count : nat) : list line_issue :=
  if Nat.eqb (backtick_count mod 2) 0 then []
  else [{| li_line := Word (lit "multiple"); li_pos := Word (lit "various");
           li_issue := lit "Unmatched template literals (backticks): "
                       ++ dec backtick_count ++ lit " total";
           li_context := lit "Check template string literals" |}].

Record totals := {
  round : nat * nat;
  square : nat * nat;
  curly : nat * nat;
  backticks : nat
}.

Record analysis := {
  file : path;
  issues : list line_issue;
  total_brackets : option totals
}.

(** The [try] block once [lines] is known. *)
Definition analyze_lines (filepath : path) (lines : list str)
  : result analysis :=
  st <- scan_lines 1 lines initial ;;
  let line_issues1 := line_issues st ++ map unclosed_issue (bracket_stack st) in
  let content := List.concat lines in
  let backtick_count := count BACKTICK content in
  Return
    {| file := filepath;
       issues := line_issues1 ++ backtick_issue backtick_count;
       total_brackets :=
         Some {| round := (count LPAREN content, count RPAREN content);
                 square := (count LBRACKET content, count RBRACKET content);
                 curly := (count LBRACE content, count RBRACE content);
                 backticks := backtick_count |} |}.

(** The result of the [except Exception] clause. *)
Definition error_analysis (filepath : path) (e : str) : analysis :=
  {| file := filepath;
     issues := [{| li_line := Word (lit "N/A"); li_pos := Word (lit "N/A");
                   li_issue := lit "ERROR: " ++ e;
                   li_context := lit "File read error" |}];
     total_brackets := None |}.

(** [analyze_bracket_structure(filepath)], given what reading the file
    yields. *)
Definition analyze_bracket_structure (filepath : path) (file : result str)
  : analysis :=
  match (text <- file ;; analyze_lines filepath (readlines text)) with
  | Return a => a
  | Raise e => error_analysis filepath e
  end.

End DetailedBracketCheck.

(** ** archived/unused-scripts/bracket-checkers/final_bracket_check.py *)

Module FinalBracketCheck.
Import Py.

Record counts_shown := {
  round : str;
  square : str;
  curly : str;
  backticks : nat
}.

Record check_result := {
  filepath : path;
  critical_issues : list str;
  info_patterns : list str;
  bracket_counts : option counts_shown
}.

(** The four tests under [# Check basic pairing]. *)
Definition pairing_issues (ro rc so sc co cc bt : nat) : list str :=
  (if Nat.eqb ro rc then []
   else [lit "Round brackets mismatch: " ++ dec ro ++ lit " open vs "
           ++ dec rc ++ lit " close"])
  ++ (if Nat.eqb so sc then []
      else [lit "Square brackets mismatch: " ++ dec so ++ lit " open vs "
              ++ dec sc ++ lit " close"])
  ++ (if Nat.eqb co cc then []
      else [lit "Curly brackets mismatch: " ++ dec co ++ lit " open vs "
              ++ dec cc ++ lit " close"])
  ++ (if Nat.eqb (bt mod 2) 0 then []
      else [lit "Template literals mismatch: " ++ dec bt
              ++ lit " backticks (should be even)"]).

Definition is_closer (c : char) : bool :=
  N.eqb c RPAREN || N.eqb c RBRACKET || N.eqb c RBRACE.

(** [re.search(r'[)\]}]{k,}', line)]: some [k] closing brackets in a
    row; [run] is the length of the run that ends here. *)
Fixpoint closing_run (k run : nat) (line : str) : bool :=
  match line with
  | [] => false
  | c :: line' =>
      if is_closer c then
        if Nat.leb k (S run) then true else closing_run k (S run) line'
      else closing_run k 0 line'
  end.

(** The patterns of one line, in the order the loop body adds them. *)
Definition line_patterns (line_num : nat) (line : str) : list str :=
  let single_quotes :=
    (Z.of_nat (count QUOTE line)
     - Z.of_nat (count2 BACKSLASH QUOTE line))%Z in
  let double_quotes :=
    (Z.of_nat (count DQUOTE line)
     - Z.of_nat (count2 BACKSLASH DQUOTE line))%Z in
  (if closing_run 4 0 line then
     [lit "Line " ++ dec line_num
        ++ lit ": Many consecutive closing brackets (possibly normal in complex structures)"]
   else [])
  ++ (if Z.eqb (single_quotes mod 2) 0 then []
      else [lit "Line " ++ dec line_num ++ lit ": Unmatched single quotes"])
  ++ (if Z.eqb (double_quotes mod 2) 0 then []
      else [lit "Line " ++ dec line_num ++ lit ": Unmatched double quotes"]).

(** [for line_num, line in enumerate(lines, 1)], from [line_num] on. *)
Fixpoint patterns_from (line_num : nat) (lines : list str) : list str :=
  match lines with
  | [] => []
  | line :: lines' => line_patterns line_num line ++ patterns_from (S line_num) lines'
  end.

(** The [try] block once [content] is known. *)
Definition check_content (fp : path) (content : str) : check_result :=
  let lines := split_lines content in
  let round_open := count LPAREN content in
  let round_close := count RPAREN content in
  let square_open := count LBRACKET content in
  let square_close := count RBRACKET content in
  let curly_open := count LBRACE content in
  let curly_close := count RBRACE content in
  let bt := count BACKTICK content in
  {| filepath := fp;
     critical_issues :=
       pairing_issues round_open round_close square_open square_close
         curly_open curly_close bt;
     info_patterns := patterns_from 1 lines;
     bracket_counts :=
       Some {| round := dec round_open ++ lit "/" ++ dec round_close;
               square := dec square_open ++ lit "/" ++ dec square_close;
               curly := dec curly_open ++ lit "/" ++ dec curly_close;
               backticks := bt |} |}.

(** [check_file_detailed(filepath)], given what reading the file yields. *)
Definition check_file_detailed (fp : path) (file : result str) : check_result :=
  match (content <- file ;; Return (check_content fp content)) with
  | Return r => r
  | Raise e =>
      {| filepath := fp;
         critical_issues := [lit "FILE ERROR: " ++ e];
         info_patterns := [];
         bracket_counts := None |}
  end.

Record sorting := {
  critical_files : list check_result;
  info_files : list check_result;
  clean_files : list check_result
}.

(** The body of the loop over [sorted(all_files)]. *)
Definition sort_file (fs : filesystem) (s : sorting) (fp : path) : sorting :=
  let result := check_file_detailed fp (fs fp) in
  if CheckBrackets.nonempty (critical_issues result) then
    {| critical_files := critical_files s ++ [result];
       info_files := info_files s; clean_files := clean_files s |}
  else if CheckBrackets.nonempty (info_patterns result) then
    {| critical_files := critical_files s;
       info_files := info_files s ++ [result]; clean_files := clean_files s |}
  else
    {| critical_files := critical_files s;
       info_files := info_files s; clean_files := clean_files s ++ [result] |}.

Definition sort_files (fs : filesystem) (files : list path) : sorting :=
  fold_left (sort_file fs) files
    {| critical_files := []; info_files := []; clean_files := [] |}.

(** The value [main()] returns, [files] being [sorted(all_files)]. *)
Definition main (fs : filesystem) (files : list path) : bool :=
  if CheckBrackets.nonempty (critical_files (sort_files fs files)) then false
  else true.

(** [exit(0 if success else 1)] *)
Definition exit_status (fs : filesystem) (files : list path) : nat :=
  if main fs files then 0 else 1.

End FinalBracketCheck.

(** ** Vocabulary of the properties *)

Module Spec.
Import Py.

(** The 1-based number of the line on which the character of index [i]
    stands: one more than the number of newlines before it. *)
Definition line_of (content : str) (i : nat) : nat :=
  S (count NEWLINE (firstn i content)).

(** The characters of [s] up to its first newline.  On a reversed
    prefix of a text these are the characters after its last newline. *)
Fixpoint until_newline (s : str) : str :=
  match s with
  | [] => []
  | c :: s' => if N.eqb c NEWLINE then [] else c :: until_newline s'
  end.

(** The 0-based offset of the character of index [i] within its line:
    the number of characters between the newline before it (or the
    start of the text) and itself. *)
Definition column_of (content : str) (i : nat) : nat :=
  List.length (until_newline (rev (firstn i content))).

(** Character [c] stands on line [l] (1-based) at column [p] (0-based)
    of [content]. *)
Definition occurs_at (content : str) (l p : nat) (c : char) : Prop :=
  exists i, nth_error content i = Some c
            /\ line_of content i = l /\ column_of content i = p.

(** Document order on positions: an earlier line, or the same line and
    an earlier column. *)
Definition before (a b : nat * nat) : Prop :=
  fst a < fst b \/ (fst a = fst b /\ snd a < snd b).

Definition beforeb (a b : nat * nat) : bool :=
  Nat.ltb (fst a) (fst b) || (Nat.eqb (fst a) (fst b) && Nat.ltb (snd a) (snd b)).

(** A family, given by its opening and closing characters, is balanced
    in [content] taken alone: no prefix has more closers than openers,
    and the totals agree. *)
Definition balanced_family (opener closer : char) (content : str) : bool :=
  forallb (fun n => Nat.leb (count closer (firstn n content))
                            (count opener (firstn n content)))
          (seq 0 (S (List.length content)))
  && Nat.eqb (count opener content) (count closer content).

Definition families_balanced (content : str) : bool :=
  balanced_family LPAREN RPAREN content
  && balanced_family LBRACKET RBRACKET content
  && balanced_family LBRACE RBRACE content.

Definition is_opener (c : char) : bool :=
  N.eqb c LPAREN || N.eqb c LBRACKET || N.eqb c LBRACE.

Definition is_closer (c : char) : bool :=
  N.eqb c RPAREN || N.eqb c RBRACKET || N.eqb c RBRACE.

(** The opening character of the family of a closing character. *)
Definition opener_of (c : char) : char :=
  if N.eqb c RPAREN then LPAREN
  else if N.eqb c RBRACKET then LBRACKET
  else if N.eqb c RBRACE then LBRACE
  else c.

(** The closer at index [n] has no partner in its own family: the
    openers of its family before it are no more than the closers. *)
Definition unmatched_in_family (content : str) (n : nat) (c : char) : Prop :=
  nth_error content n = Some c
  /\ count (opener_of c) (firstn n content) <= count c (firstn n content).

End Spec.

(** ** The positional scan of check_brackets.py without exceptions

    [step] is [scan_char] with [pop] read as [removelast]; [walk] runs it
    over the whole text, counting lines and columns as [readlines] and
    the two [enumerate] do.  The proofs go through these two functions;
    [scan_char_step] and [scan_walk] tie them to the source's loops. *)

Module Walk.
Import Py CheckBrackets Spec.

Definition step (l p : nat) (c : char) (st : scan_state) : scan_state :=
  if N.eqb c LPAREN then set_round st (round_stack st ++ [(l, p)])
  else if N.eqb c RPAREN then
    match round_stack st with
    | [] => add_issue st (unmatched l p RPAREN)
    | _ => set_round st (removelast (round_stack st))
    end
  else if N.eqb c LBRACKET then set_square st (square_stack st ++ [(l, p)])
  else if N.eqb c RBRACKET then
    match square_stack st with
    | [] => add_issue st (unmatched l p RBRACKET)
    | _ => set_square st (removelast (square_stack st))
    end
  else if N.eqb c LBRACE then set_curly st (curly_stack st ++ [(l, p)])
  else if N.eqb c RBRACE then
    match curly_stack st with
    | [] => add_issue st (unmatched l p RBRACE)
    | _ => set_curly st (removelast (curly_stack st))
    end
  else st.

Fixpoint walk (l p : nat) (text : str) (st : scan_state) : scan_state :=
  match text with
  | [] => st
  | c :: text' =>
      if N.eqb c NEWLINE then walk (S l) 0 text' (step l p c st)
      else walk l (S p) text' (step l p c st)
  end.

(** The number of unmatched-closer diagnostics for closer [c]. *)
Definition unmatched_of (c : char) (st : scan_state) : nat :=
  List.length (filter (fun i => N.eqb (issue_char i) c) (bracket_issues st)).

(** Openers seen plus closers rejected = closers seen plus openers
    still on the stack, family by family. *)
Definition counted (seen : str) (st : scan_state) : Prop :=
  count LPAREN seen + unmatched_of RPAREN st
    = count RPAREN seen + List.length (round_stack st)
  /\ count LBRACKET seen + unmatched_of RBRACKET st
    = count RBRACKET seen + List.length (square_stack st)
  /\ count LBRACE seen + unmatched_of RBRACE st
    = count RBRACE seen + List.length (curly_stack st).

Definition issue_position (i : position_issue) : position :=
  (issue_line i, issue_pos i).

(** A list of diagnostics in strict document order. *)
Definition in_document_order (l : list position_issue) : Prop :=
  StronglySorted (fun a b => before (issue_position a) (issue_position b)) l.

(** A list of positions in strict document order, all of them before
    position [cur]. *)
Definition trail (cur : position) (s : list position) : Prop :=
  StronglySorted before s /\ Forall (fun e => before e cur) s.

(** Everything recorded lies strictly before position [cur], each list
    in document order. *)
Definition ordered (cur : position) (st : scan_state) : Prop :=
  trail cur (round_stack st)
  /\ trail cur (square_stack st)
  /\ trail cur (curly_stack st)
  /\ trail cur (map issue_position (bracket_issues st)).

(** Everything recorded points at a character of the text, of the right
    kind. *)
Definition located (content : str) (st : scan_state) : Prop :=
  Forall (fun e => occurs_at content (fst e) (snd e) LPAREN) (round_stack st)
  /\ Forall (fun e => occurs_at content (fst e) (snd e) LBRACKET) (square_stack st)
  /\ Forall (fun e => occurs_at content (fst e) (snd e) LBRACE) (curly_stack st)
  /\ Forall (fun i => issue_kind_of i = Unmatched_closing
                      /\ is_closer (issue_char i) = true
                      /\ occurs_at content (issue_line i) (issue_pos i) (issue_char i))
            (bracket_issues st).

(** Every closer reported during the pass is unmatched within its own
    family, at the place the diagnostic names. *)
Definition justified (content : str) (st : scan_state) : Prop :=
  Forall (fun i => exists n,
              unmatched_in_family content n (issue_char i)
              /\ line_of content n = issue_line i
              /\ column_of content n = issue_pos i)
         (bracket_issues st).

End Walk.

(** ** Derived notions used in the statements *)

Module Derived.
Import Py.

(** [str(e)] of the [TypeError] that subscripting a set raises. *)
Definition set_message : str := lit "'set' object is not subscriptable".

(** The test that sends a file to [critical_files]. *)
Definition is_critical (fs : filesystem) (fp : path) : bool :=
  CheckBrackets.nonempty
    (FinalBracketCheck.critical_issues
       (FinalBracketCheck.check_file_detailed fp (fs fp))).

(** The headline the loop of check_brackets.py prints for a file. *)
Definition headline_of (fs : filesystem) (fp : path) : CheckBrackets.headline :=
  if CheckBrackets.nonempty (CheckBrackets.count_brackets (fs fp))
     || CheckBrackets.nonempty (CheckBrackets.find_bracket_position_issues (fs fp))
  then CheckBrackets.PROBLEME else CheckBrackets.OK.


(** Some closing bracket stands in the text. *)
Definition has_closer (text : str) : bool :=
  existsb (fun c => contains c (lit ")]}")) text.

(** The opening brackets of a text with their positions, in the order
    of the text: what the combined stack of detailed_bracket_check.py
    holds after a pass that met no closing bracket. *)
Fixpoint opens (l p : nat) (text : str) : list (char * (nat * nat)) :=
  match text with
  | [] => []
  | c :: text' =>
      let rest := if N.eqb c NEWLINE then opens (S l) 0 text'
                  else opens l (S p) text' in
      if contains c (lit "([{") then (c, (l, p)) :: rest else rest
  end.

Definition ob_key (b : DetailedBracketCheck.open_bracket)
  : char * (nat * nat) :=
  (DetailedBracketCheck.ob_char b,
   (DetailedBracketCheck.ob_line b, DetailedBracketCheck.ob_pos b)).


(** A small tree for examples: [b.js] cannot be read. *)
Definition example_fs : filesystem :=
  fun fp =>
    if CheckBrackets.str_eqb fp (lit "b.js") then Raise (lit "Permission denied")
    else if CheckBrackets.str_eqb fp (lit "c.js") then Return (lit "f(x))")
    else Return (lit "f(x)").

Definition example_files : list path := [lit "a.js"; lit "b.js"; lit "c.js"].

End Derived.

(** ** archived/unused-scripts/bracket-checkers/bracket_check.py *)

Module BracketCheck.
Import Py.

Record counts_shown := {
  round : str;
  square : str;
  curly : str;
  backticks : nat
}.

Record check_result := {
  file : path;
  issues : list str;
  counts : option counts_shown
}.

(** The four tests after [# Count brackets]. *)
Definition count_issues (ro rc so sc co cc bt : nat) : list str :=
  (if Nat.eqb ro rc then []
   else [lit "Round brackets: " ++ dec ro ++ lit " open vs "
           ++ dec rc ++ lit " close"])
  ++ (if Nat.eqb so sc then []
      else [lit "Square brackets: " ++ dec so ++ lit " open vs "
              ++ dec sc ++ lit " close"])
  ++ (if Nat.eqb co cc then []
      else [lit "Curly brackets: " ++ dec co ++ lit " open vs "
              ++ dec cc ++ lit " close"])
  ++ (if Nat.eqb (bt mod 2) 0 then []
      else [lit "Backticks: " ++ dec bt ++ lit " total (uneven number)"]).

(** The [try] block once [content] is known. *)
Definition check_content (fp : path) (content : str) : check_result :=
  let round_open := count LPAREN content in
  let round_close := count RPAREN content in
  let square_open := count LBRACKET content in
  let square_close := count RBRACKET content in
  let curly_open := count LBRACE content in
  let curly_close := count RBRACE content in
  let bt := count BACKTICK content in
  {| file := fp;
     issues := count_issues round_open round_close square_open square_close
                 curly_open curly_close bt;
     counts :=
       Some {| round := dec round_open ++ lit "/" ++ dec round_close;
               square := dec square_open ++ lit "/" ++ dec square_close;
               curly := dec curly_open ++ lit "/" ++ dec curly_close;
               backticks := bt |} |}.

(** [check_file_brackets(filepath)], given what reading the file yields. *)
Definition check_file_brackets (fp : path) (f : result str) : check_result :=
  match (content <- f ;; Return (check_content fp content)) with
  | Return r => r
  | Raise e =>
      {| file := fp;
         issues := [lit "ERROR reading file: " ++ e];
         counts := None |}
  end.

Record sorting := {
  problem_files : list check_result;
  ok_files : list check_result
}.

(** The body of the loop over [sorted(all_files)]. *)
Definition sort_file (fs : filesystem) (s : sorting) (fp : path) : sorting :=
  let result := check_file_brackets fp (fs fp) in
  if CheckBrackets.nonempty (issues result) then
    {| problem_files := problem_files s ++ [result]; ok_files := ok_files s |}
  else
    {| problem_files := problem_files s; ok_files := ok_files s ++ [result] |}.

(** The two lists [main()] has filled when its loop ends, [files] being
    [sorted(all_files)]. *)
Definition main (fs : filesystem) (files : list path) : sorting :=
  fold_left (sort_file fs) files {| problem_files := []; ok_files := [] |}.

End BracketCheck.

(** ** detailed_bracket_check.py: [find_common_patterns] and [main] *)

Module CommonPatterns.
Import Py.

Definition is_opener (c : char) : bool :=
  N.eqb c LPAREN || N.eqb c LBRACKET || N.eqb c LBRACE.

(** [re.search(r'[(\[{]{k,}', line)]: some [k] opening brackets in a
    row; [run] is the length of the run that ends here. *)
Fixpoint opening_run (k run : nat) (line : str) : bool :=
  match line with
  | [] => false
  | c :: line' =>
      if is_opener c then
        if Nat.leb k (S run) then true else opening_run k (S run) line'
      else opening_run k 0 line'
  end.

(** [re.match(r'\)\s*\[\s*\{', s)]: a closing round bracket, white
    space, an opening square bracket, white space, an opening curly
    bracket, from the start of [s]. *)
Definition sequence_at (s : str) : bool :=
  match s with
  | c :: r =>
      N.eqb c RPAREN
      && match lstrip r with
         | c1 :: r1 =>
             N.eqb c1 LBRACKET
             && match lstrip r1 with
                | c2 :: _ => N.eqb c2 LBRACE
                | [] => false
                end
         | [] => false
         end
  | [] => false
  end.

(** [re.search(r'\)\s*\[\s*\{', line)] *)
Fixpoint sequence_search (line : str) : bool :=
  sequence_at line
  || match line with
     | [] => false
     | _ :: line' => sequence_search line'
     end.

(** The patterns of one line, in the order the loop body adds them. *)
Definition line_patterns (line_num : nat) (line : str) : list str :=
  (if opening_run 3 0 line then
     [lit "Line " ++ dec line_num ++ lit ": Multiple consecutive opening brackets"]
   else [])
  ++ (if FinalBracketCheck.closing_run 3 0 line then
        [lit "Line " ++ dec line_num ++ lit ": Multiple consecutive closing brackets"]
      else [])
  ++ (if sequence_search line then
        [lit "Line " ++ dec line_num ++ lit ": Complex bracket sequence )[{"]
      else [])
  ++ (if contains BACKTICK line
         && (contains LBRACE line || contains LBRACKET line
             || contains LPAREN line)
      then
        if Nat.eqb (count BACKTICK line) 1 then
          [lit "Line " ++ dec line_num ++ lit ": Possible incomplete template literal"]
        else []
      else []).

(** [for line_num, line in enumerate(lines, 1)], from [line_num] on. *)
Fixpoint patterns_from (line_num : nat) (lines : list str) : list str :=
  match lines with
  | [] => []
  | line :: lines' =>
      line_patterns line_num line ++ patterns_from (S line_num) lines'
  end.

(** [find_common_patterns(filepath)], given what reading the file
    yields. *)
Definition find_common_patterns (f : result str) : list str :=
  match (content <- f ;; Return (patterns_from 1 (split_lines content))) with
  | Return patterns => patterns
  | Raise e => [lit "ERROR analyzing patterns: " ++ e]
  end.

Record main_state := {
  files_with_issues :
    list (path * DetailedBracketCheck.analysis * list str);
  total_issues : nat;
  ok_printed : list path
}.

(** The body of the loop over [sorted(all_files)]. *)
Definition visit (fs : filesystem) (st : main_state) (fp : path) : main_state :=
  let result := DetailedBracketCheck.analyze_bracket_structure fp (fs fp) in
  let patterns := find_common_patterns (fs fp) in
  let has_issues :=
    CheckBrackets.nonempty (DetailedBracketCheck.issues result)
    || CheckBrackets.nonempty patterns in
  if has_issues then
    {| files_with_issues := files_with_issues st ++ [(fp, result, patterns)];
       total_issues :=
         total_issues st
         + (List.length (DetailedBracketCheck.issues result)
            + List.length patterns);
       ok_printed := ok_printed st |}
  else
    {| files_with_issues := files_with_issues st;
       total_issues := total_issues st;
       ok_printed := ok_printed st ++ [fp] |}.

(** The state of [main()] when its loop ends, [files] being
    [sorted(all_files)]. *)
Definition main (fs : filesystem) (files : list path) : main_state :=
  fold_left (visit fs) files
    {| files_with_issues := []; total_issues := 0; ok_printed := [] |}.


End CommonPatterns.

(** ** Notions used in the further properties *)

Module More.
Import Py.

(** The occurrences of [b] in [s] that do not directly follow an [a];
    [prev] tells whether the character before [s] is an [a]. *)
Fixpoint unescaped (a b : char) (prev : bool) (s : str) : nat :=
  match s with
  | [] => 0
  | x :: s' =>
      (if N.eqb x b && negb prev then 1 else 0)
      + unescaped a b (N.eqb x a) s'
  end.

(** No bracket and no backtick stands in the text. *)
Definition plain (text : str) : bool :=
  forallb (fun c => negb (N.eqb c LPAREN || N.eqb c RPAREN
                          || N.eqb c LBRACKET || N.eqb c RBRACKET
                          || N.eqb c LBRACE || N.eqb c RBRACE
                          || N.eqb c BACKTICK)) text.

(** The diagnostics of kind [k] for character [c] in a report. *)
Definition reported (k : CheckBrackets.issue_kind) (c : char)
    (l : list CheckBrackets.position_issue) : nat :=
  List.length
    (filter (fun i =>
               match CheckBrackets.issue_kind_of i, k with
               | CheckBrackets.Unmatched_closing, CheckBrackets.Unmatched_closing
               | CheckBrackets.Unclosed_opening, CheckBrackets.Unclosed_opening =>
                   N.eqb (CheckBrackets.issue_char i) c
               | _, _ => false
               end) l).

(** A decimal digit. *)
Definition is_digit (c : char) : Prop := (48 <= c <= 57)%N.

(** [s] without a newline at its end. *)
Definition chomp (s : str) : str :=
  match rev s with
  | c :: r => if N.eqb c NEWLINE then rev r else s
  | [] => s
  end.

(** ['\n'.join(pieces)] *)
Fixpoint join_lines (pieces : list str) : str :=
  match pieces with
  | [] => []
  | [x] => x
  | x :: rest => x ++ NEWLINE :: join_lines rest
  end.

(** [line] starts with [k] characters that satisfy [p]. *)
Definition starts_with_run (p : char -> bool) (k : nat) (line : str) : Prop :=
  exists mid suf,
    line = mid ++ suf /\ List.length mid = k /\ forallb p mid = true.

(** Somewhere in [line] stand [k] characters in a row that satisfy [p]. *)
Definition has_run (p : char -> bool) (k : nat) (line : str) : Prop :=
  exists pre rest, line = pre ++ rest /\ starts_with_run p k rest.


(** [has_issues] of that loop. *)
Definition has_issues (fs : filesystem) (fp : path) : bool :=
  CheckBrackets.nonempty
    (DetailedBracketCheck.issues
       (DetailedBracketCheck.analyze_bracket_structure fp (fs fp)))
  || CheckBrackets.nonempty (CommonPatterns.find_common_patterns (fs fp)).

(** The count check of check_brackets.py reports something for a file. *)
Definition count_flagged (fs : filesystem) (fp : path) : bool :=
  CheckBrackets.nonempty (CheckBrackets.count_brackets (fs fp)).

End More.

(** ** Lemmas on texts *)

Section TextLemmas.
Import Py.

Lemma count_app (c : char) (a b : str) :
  count c (a ++ b) = count c a + count c b.
Proof.
  induction a as [|x a IH]; simpl; [reflexivity|].
  rewrite IH. lia.
Qed.

Lemma count_snoc (c : char) (a : str) (x : char) :
  count c (a ++ [x]) = count c a + (if N.eqb x c then 1 else 0).
Proof. rewrite count_app. simpl. lia. Qed.

Lemma count_repeat_same (c : char) (n : nat) : count c (repeat c n) = n.
Proof.
  induction n as [|n IH]; simpl; [reflexivity|].
  rewrite N.eqb_refl, IH. reflexivity.
Qed.

Lemma count_repeat_other (c x : char) (n : nat) :
  N.eqb x c = false -> count c (repeat x n) = 0.
Proof.
  intros Hx. induction n as [|n IH]; simpl; [reflexivity|].
  rewrite Hx, IH. reflexivity.
Qed.

Lemma concat_readlines (s : str) : List.concat (readlines s) = s.
Proof.
  induction s as [|c s IH]; simpl; [reflexivity|].
  destruct (N.eqb c NEWLINE).
  - simpl. now rewrite IH.
  - destruct (readlines s) as [|l ls]; simpl in *.
    + now rewrite <- IH.
    + now rewrite <- IH.
Qed.

Lemma firstn_prefix (a b : str) : firstn (List.length a) (a ++ b) = a.
Proof.
  induction a as [|x a IH]; simpl.
  - reflexivity.
  - now rewrite IH.
Qed.

Lemma nth_error_middle (a b : str) (c : char) :
  nth_error (a ++ c :: b) (List.length a) = Some c.
Proof. induction a as [|x a IH]; simpl; auto. Qed.

End TextLemmas.

(** ** The source's loops never raise and compute [walk] *)

Section Loops.
Import Py CheckBrackets Walk.

Lemma pop_nonempty (A : Type) (l : list A) :
  nonempty l = true -> pop l = Return (removelast l).
Proof. destruct l; simpl; [discriminate | reflexivity]. Qed.

Lemma scan_char_step (l p : nat) (c : char) (st : scan_state) :
  scan_char l p c st = Return (step l p c st).
Proof.
  unfold scan_char, step.
  repeat match goal with
         | |- context [N.eqb c ?k] => destruct (N.eqb c k)
         end; try reflexivity.
  - destruct (round_stack st); reflexivity.
  - destruct (square_stack st); reflexivity.
  - destruct (curly_stack st); reflexivity.
Qed.

Lemma scan_lines_unfold (l : nat) (lines : list str) (st : scan_state) :
  scan_lines l lines st
  = match lines with
    | [] => Return st
    | line :: lines' =>
        st' <- scan_line l 0 line st ;; scan_lines (S l) lines' st'
    end.
Proof. destruct lines; reflexivity. Qed.

Lemma scan_from_walk (text : str) :
  forall l p st,
    match readlines text with
    | [] => Return st
    | line :: lines =>
        st' <- scan_line l p line st ;; scan_lines (S l) lines st'
    end = Return (walk l p text st).
Proof.
  induction text as [|c text IH]; intros l p st; simpl; [reflexivity|].
  destruct (N.eqb c NEWLINE) eqn:Hc.
  - simpl. rewrite scan_char_step. simpl.
    rewrite scan_lines_unfold. apply IH.
  - specialize (IH l (S p) (step l p c st)).
    destruct (readlines text) as [|line lines]; simpl;
      rewrite scan_char_step; simpl; exact IH.
Qed.

Lemma scan_walk (content : str) :
  scan content = Return (walk 1 0 content initial).
Proof.
  unfold scan. rewrite scan_lines_unfold. apply scan_from_walk.
Qed.

Lemma position_issues_walk (content : str) :
  position_issues content = Return (report (walk 1 0 content initial)).
Proof. unfold position_issues. now rewrite scan_walk. Qed.

Lemma find_issues_walk (content : str) :
  find_bracket_position_issues (Return content)
  = map format_issue (report (walk 1 0 content initial)).
Proof.
  unfold find_bracket_position_issues. simpl.
  now rewrite position_issues_walk.
Qed.

End Loops.

(** ** The counting invariant *)

Section Counting.
Import Py CheckBrackets Walk.

Lemma length_removelast_cons (A : Type) (x : A) (l : list A) :
  List.length (removelast (x :: l)) = List.length l.
Proof.
  destruct (@exists_last _ (x :: l)) as (l' & a & E); [discriminate|].
  rewrite E, removelast_last.
  apply (f_equal (@List.length A)) in E.
  rewrite length_app in E. simpl in E. lia.
Qed.

Ltac count_arith :=
  cbn [round_stack square_stack curly_stack bracket_issues
       set_round set_square set_curly add_issue];
  rewrite ?filter_app, ?length_app, ?length_removelast_cons; simpl;
  repeat split; lia.

Lemma step_counted (seen : str) (st : scan_state) (l p : nat) (c : char) :
  counted seen st -> counted (seen ++ [c]) (step l p c st).
Proof.
  unfold counted, step, unmatched_of. intros (Hr & Hs & Hc).
  rewrite !count_snoc.
  destruct (N.eqb_spec c LPAREN) as [->|N1]; [count_arith|].
  destruct (N.eqb_spec c RPAREN) as [->|N2].
  { destruct (round_stack st) as [|e r] eqn:E; simpl in Hr;
      cbn [round_stack add_issue set_round]; rewrite ?E; count_arith. }
  destruct (N.eqb_spec c LBRACKET) as [->|N3]; [count_arith|].
  destruct (N.eqb_spec c RBRACKET) as [->|N4].
  { destruct (square_stack st) as [|e r] eqn:E; simpl in Hs;
      cbn [square_stack add_issue set_square]; rewrite ?E; count_arith. }
  destruct (N.eqb_spec c LBRACE) as [->|N5]; [count_arith|].
  destruct (N.eqb_spec c RBRACE) as [->|N6].
  { destruct (curly_stack st) as [|e r] eqn:E; simpl in Hc;
      cbn [curly_stack add_issue set_curly]; rewrite ?E; count_arith. }
  repeat split; lia.
Qed.

Lemma walk_counted (text : str) :
  forall seen l p st,
    counted seen st -> counted (seen ++ text) (walk l p text st).
Proof.
  induction text as [|c text IH]; intros seen l p st H; simpl.
  - now rewrite app_nil_r.
  - replace (seen ++ c :: text) with ((seen ++ [c]) ++ text)
      by (rewrite <- app_assoc; reflexivity).
    destruct (N.eqb c NEWLINE); apply IH, step_counted, H.
Qed.

Lemma counted_initial : counted [] initial.
Proof. repeat split. Qed.

Lemma scan_counted (content : str) :
  counted content (walk 1 0 content initial).
Proof.
  change content with ([] ++ content) at 1.
  apply walk_counted, counted_initial.
Qed.

End Counting.

(** ** Families balanced one by one raise no diagnostic *)

Section Balanced.
Import Py CheckBrackets Walk Spec.

Lemma firstn_snoc (a b : str) (c : char) :
  firstn (S (List.length a)) (a ++ c :: b) = a ++ [c].
Proof.
  replace (a ++ c :: b) with ((a ++ [c]) ++ b)
    by (rewrite <- app_assoc; reflexivity).
  replace (S (List.length a)) with (List.length (a ++ [c]))
    by (rewrite length_app; simpl; lia).
  apply firstn_prefix.
Qed.

Lemma balanced_family_spec (o k : char) (content : str) :
  balanced_family o k content = true ->
  (forall n, count k (firstn n content) <= count o (firstn n content))
  /\ count o content = count k content.
Proof.
  unfold balanced_family. intros H.
  apply andb_prop in H. destruct H as [Hp Ht].
  apply Nat.eqb_eq in Ht. split; [|exact Ht].
  intros n. destruct (Nat.le_gt_cases n (List.length content)) as [Hn|Hn].
  - rewrite forallb_forall in Hp.
    apply Nat.leb_le, Hp, in_seq. lia.
  - rewrite firstn_all2 by lia. lia.
Qed.

Lemma step_quiet (seen : str) (st : scan_state) (l p : nat) (c : char) :
  counted seen st ->
  bracket_issues st = [] ->
  count RPAREN (seen ++ [c]) <= count LPAREN (seen ++ [c]) ->
  count RBRACKET (seen ++ [c]) <= count LBRACKET (seen ++ [c]) ->
  count RBRACE (seen ++ [c]) <= count LBRACE (seen ++ [c]) ->
  bracket_issues (step l p c st) = [].
Proof.
  unfold counted, unmatched_of, step. intros (Hr & Hs & Hc) Hq.
  rewrite Hq in Hr, Hs, Hc. simpl in Hr, Hs, Hc.
  rewrite !count_snoc.
  destruct (N.eqb_spec c LPAREN) as [->|N1]; [intros; exact Hq|].
  destruct (N.eqb_spec c RPAREN) as [->|N2].
  { destruct (round_stack st); simpl in *; intros; [lia | exact Hq]. }
  destruct (N.eqb_spec c LBRACKET) as [->|N3]; [intros; exact Hq|].
  destruct (N.eqb_spec c RBRACKET) as [->|N4].
  { destruct (square_stack st); simpl in *; intros; [lia | exact Hq]. }
  destruct (N.eqb_spec c LBRACE) as [->|N5]; [intros; exact Hq|].
  destruct (N.eqb_spec c RBRACE) as [->|N6].
  { destruct (curly_stack st); simpl in *; intros; [lia | exact Hq]. }
  intros; exact Hq.
Qed.

Lemma walk_quiet (text : str) :
  forall seen l p st,
    counted seen st ->
    bracket_issues st = [] ->
    (forall n, count RPAREN (firstn n (seen ++ text))
               <= count LPAREN (firstn n (seen ++ text))) ->
    (forall n, count RBRACKET (firstn n (seen ++ text))
               <= count LBRACKET (firstn n (seen ++ text))) ->
    (forall n, count RBRACE (firstn n (seen ++ text))
               <= count LBRACE (firstn n (seen ++ text))) ->
    bracket_issues (walk l p text st) = [].
Proof.
  induction text as [|c text IH]; intros seen l p st Hcnt Hq Hr Hs Hc; simpl.
  - exact Hq.
  - assert (Hq' : bracket_issues (step l p c st) = []).
    { apply step_quiet with (seen := seen); trivial.
      - specialize (Hr (S (List.length seen))). now rewrite firstn_snoc in Hr.
      - specialize (Hs (S (List.length seen))). now rewrite firstn_snoc in Hs.
      - specialize (Hc (S (List.length seen))). now rewrite firstn_snoc in Hc. }
    assert (Hcnt' : counted (seen ++ [c]) (step l p c st))
      by now apply step_counted.
    assert (E : seen ++ c :: text = (seen ++ [c]) ++ text)
      by (rewrite <- app_assoc; reflexivity).
    rewrite E in Hr, Hs, Hc.
    destruct (N.eqb c NEWLINE); apply IH with (seen := seen ++ [c]); trivial.
Qed.

Lemma report_nil (st : scan_state) :
  report st = [] <->
  bracket_issues st = [] /\ round_stack st = []
  /\ square_stack st = [] /\ curly_stack st = [].
Proof.
  unfold report. split.
  - intros H.
    apply app_eq_nil in H. destruct H as [H1 H].
    apply app_eq_nil in H. destruct H as [H2 H].
    apply app_eq_nil in H. destruct H as [H3 H4].
    apply map_eq_nil in H2, H3, H4. auto.
  - intros (-> & -> & -> & ->). reflexivity.
Qed.

Lemma find_issues_nil (content : str) :
  find_bracket_position_issues (Return content) = [] <->
  report (walk 1 0 content initial) = [].
Proof.
  rewrite find_issues_walk. split.
  - apply map_eq_nil.
  - intros ->. reflexivity.
Qed.

End Balanced.

(** ** Positions: lines, columns and document order *)

Section Positions.
Import Py CheckBrackets Walk Spec.

Lemma column_snoc (seen : str) (c : char) :
  List.length (until_newline (rev (seen ++ [c])))
  = if N.eqb c NEWLINE then 0
    else S (List.length (until_newline (rev seen))).
Proof.
  rewrite rev_app_distr. simpl.
  destruct (N.eqb c NEWLINE); reflexivity.
Qed.

Lemma occurs_here (seen rest : str) (c : char) :
  occurs_at (seen ++ c :: rest)
    (S (count NEWLINE seen)) (List.length (until_newline (rev seen))) c.
Proof.
  exists (List.length seen). unfold line_of, column_of.
  rewrite nth_error_middle, firstn_prefix. auto.
Qed.

Lemma before_trans (a b c : position) : before a b -> before b c -> before a c.
Proof. unfold before. lia. Qed.

Lemma before_next_column (l p : nat) : before (l, p) (l, S p).
Proof. unfold before; simpl. lia. Qed.

Lemma before_next_line (l p : nat) : before (l, p) (S l, 0).
Proof. unfold before; simpl. lia. Qed.

Lemma beforeb_spec (a b : position) : beforeb a b = true <-> before a b.
Proof.
  unfold beforeb, before.
  rewrite orb_true_iff, andb_true_iff, !Nat.ltb_lt, Nat.eqb_eq. tauto.
Qed.

Lemma Forall_removelast (A : Type) (P : A -> Prop) (l : list A) :
  Forall P l -> Forall P (removelast l).
Proof.
  intros H. destruct l as [|x l]; [exact H|].
  destruct (@exists_last _ (x :: l)) as (l' & a & E); [discriminate|].
  rewrite E in *. rewrite removelast_last.
  apply Forall_app in H. tauto.
Qed.

Lemma StronglySorted_snoc (A : Type) (R : A -> A -> Prop) (l : list A) (x : A) :
  StronglySorted R l -> Forall (fun e => R e x) l -> StronglySorted R (l ++ [x]).
Proof.
  induction 1 as [|a l Hl IH Ha]; intros Hx; simpl.
  - repeat constructor.
  - inversion Hx; subst. constructor; [now apply IH|].
    apply Forall_app. split; [exact Ha | now repeat constructor].
Qed.

Lemma StronglySorted_app_l (A : Type) (R : A -> A -> Prop) (l m : list A) :
  StronglySorted R (l ++ m) -> StronglySorted R l.
Proof.
  induction l as [|a l IH]; simpl; intros H; [constructor|].
  inversion H; subst. constructor; [now apply IH|].
  match goal with F : Forall _ (l ++ m) |- _ => apply Forall_app in F end.
  tauto.
Qed.

Lemma StronglySorted_removelast (A : Type) (R : A -> A -> Prop) (l : list A) :
  StronglySorted R l -> StronglySorted R (removelast l).
Proof.
  intros H. destruct l as [|x l]; [exact H|].
  destruct (@exists_last _ (x :: l)) as (l' & a & E); [discriminate|].
  rewrite E in *. rewrite removelast_last.
  now apply StronglySorted_app_l in H.
Qed.

Lemma StronglySorted_map (A B : Type) (f : A -> B) (R : B -> B -> Prop)
    (l : list A) :
  StronglySorted R (map f l) -> StronglySorted (fun a b => R (f a) (f b)) l.
Proof.
  induction l as [|a l IH]; simpl; intros H; [constructor|].
  inversion H; subst. constructor; [now apply IH|].
  match goal with F : Forall _ (map f l) |- _ => rewrite Forall_map in F end.
  assumption.
Qed.

Lemma trail_nil (cur : position) : trail cur [].
Proof. split; constructor. Qed.

Lemma trail_advance (cur nxt : position) (s : list position) :
  before cur nxt -> trail cur s -> trail nxt s.
Proof.
  intros Hn [Hs Hb]. split; [exact Hs|].
  eapply Forall_impl; [|exact Hb].
  intros e He. exact (before_trans He Hn).
Qed.

Lemma trail_push (cur nxt : position) (s : list position) :
  before cur nxt -> trail cur s -> trail nxt (s ++ [cur]).
Proof.
  intros Hn [Hs Hb]. split.
  - now apply StronglySorted_snoc.
  - apply Forall_app. split; [|constructor; [exact Hn | constructor]].
    eapply Forall_impl; [|exact Hb].
    intros e He. exact (before_trans He Hn).
Qed.

Lemma trail_pop (cur : position) (s : list position) :
  trail cur s -> trail cur (removelast s).
Proof.
  intros [Hs Hb]. split.
  - now apply StronglySorted_removelast.
  - now apply Forall_removelast.
Qed.

Lemma step_ordered (l p : nat) (nxt : position) (c : char) (st : scan_state) :
  before (l, p) nxt -> ordered (l, p) st -> ordered nxt (step l p c st).
Proof.
  intros Hn (Hr & Hs & Hc & Hi).
  pose proof (trail_advance Hn Hr) as Hr'.
  pose proof (trail_advance Hn Hs) as Hs'.
  pose proof (trail_advance Hn Hc) as Hc'.
  pose proof (trail_advance Hn Hi) as Hi'.
  pose proof (trail_push Hn Hr) as Pr.
  pose proof (trail_push Hn Hs) as Ps.
  pose proof (trail_push Hn Hc) as Pc.
  pose proof (trail_push Hn Hi) as Pi.
  pose proof (trail_pop Hr') as Qr.
  pose proof (trail_pop Hs') as Qs.
  pose proof (trail_pop Hc') as Qc.
  unfold ordered, step.
  destruct (N.eqb c LPAREN); [simpl; tauto|].
  destruct (N.eqb c RPAREN).
  { destruct (round_stack st) eqn:E; simpl; rewrite ?E, ?map_app; simpl;
      tauto. }
  destruct (N.eqb c LBRACKET); [simpl; tauto|].
  destruct (N.eqb c RBRACKET).
  { destruct (square_stack st) eqn:E; simpl; rewrite ?E, ?map_app; simpl;
      tauto. }
  destruct (N.eqb c LBRACE); [simpl; tauto|].
  destruct (N.eqb c RBRACE).
  { destruct (curly_stack st) eqn:E; simpl; rewrite ?E, ?map_app; simpl;
      tauto. }
  tauto.
Qed.

Lemma walk_ordered (text : str) :
  forall l p st,
    ordered (l, p) st -> exists cur, ordered cur (walk l p text st).
Proof.
  induction text as [|c text IH]; intros l p st H; simpl.
  - now exists (l, p).
  - destruct (N.eqb c NEWLINE); apply IH.
    + apply step_ordered; [apply before_next_line | exact H].
    + apply step_ordered; [apply before_next_column | exact H].
Qed.

Lemma scan_ordered (content : str) :
  exists cur, ordered cur (walk 1 0 content initial).
Proof.
  apply walk_ordered. unfold ordered, initial; simpl.
  repeat split; constructor.
Qed.

End Positions.

Section Located.
Import Py CheckBrackets Walk Spec.

Lemma step_located (content : str) (l p : nat) (c : char) (st : scan_state) :
  occurs_at content l p c ->
  located content st -> located content (step l p c st).
Proof.
  intros Hc (Hr & Hs & Hk & Hi).
  pose proof (Forall_removelast Hr) as Qr.
  pose proof (Forall_removelast Hs) as Qs.
  pose proof (Forall_removelast Hk) as Qk.
  unfold located, step.
  destruct (N.eqb_spec c LPAREN) as [->|N1].
  { simpl. repeat split; trivial.
    apply Forall_app; split; [exact Hr | now repeat constructor]. }
  destruct (N.eqb_spec c RPAREN) as [->|N2].
  { destruct (round_stack st) eqn:E; simpl; rewrite ?E; repeat split; trivial.
    apply Forall_app; split; [exact Hi | now repeat constructor]. }
  destruct (N.eqb_spec c LBRACKET) as [->|N3].
  { simpl. repeat split; trivial.
    apply Forall_app; split; [exact Hs | now repeat constructor]. }
  destruct (N.eqb_spec c RBRACKET) as [->|N4].
  { destruct (square_stack st) eqn:E; simpl; rewrite ?E; repeat split; trivial.
    apply Forall_app; split; [exact Hi | now repeat constructor]. }
  destruct (N.eqb_spec c LBRACE) as [->|N5].
  { simpl. repeat split; trivial.
    apply Forall_app; split; [exact Hk | now repeat constructor]. }
  destruct (N.eqb_spec c RBRACE) as [->|N6].
  { destruct (curly_stack st) eqn:E; simpl; rewrite ?E; repeat split; trivial.
    apply Forall_app; split; [exact Hi | now repeat constructor]. }
  repeat split; trivial.
Qed.

Lemma walk_located (text : str) :
  forall seen l p st,
    l = S (count NEWLINE seen) ->
    p = List.length (until_newline (rev seen)) ->
    located (seen ++ text) st ->
    located (seen ++ text) (walk l p text st).
Proof.
  induction text as [|c text IH]; intros seen l p st Hl Hp H; simpl.
  - exact H.
  - assert (H' : located (seen ++ c :: text) (step l p c st)).
    { apply step_located; [|exact H]. subst l p. apply occurs_here. }
    assert (E : seen ++ c :: text = (seen ++ [c]) ++ text)
      by (rewrite <- app_assoc; reflexivity).
    rewrite E in *.
    destruct (N.eqb c NEWLINE) eqn:Hc; apply IH; trivial.
    + rewrite count_snoc, Hc. lia.
    + now rewrite column_snoc, Hc.
    + rewrite count_snoc, Hc. lia.
    + rewrite column_snoc, Hc. now subst p.
Qed.

Lemma scan_located (content : str) :
  located content (walk 1 0 content initial).
Proof.
  change content with ([] ++ content) at 1.
  apply walk_located; try reflexivity.
  unfold located, initial; simpl. repeat split; constructor.
Qed.

End Located.

Section Justified.
Import Py CheckBrackets Walk Spec.

Lemma step_justified (seen rest : str) (c : char) (st : scan_state) :
  counted seen st ->
  justified (seen ++ c :: rest) st ->
  justified (seen ++ c :: rest)
    (step (S (count NEWLINE seen)) (List.length (until_newline (rev seen))) c st).
Proof.
  intros (Cr & Cs & Cc) J.
  assert (New : forall k,
             c = k -> count (opener_of k) seen <= count k seen ->
             justified (seen ++ c :: rest)
               (add_issue st (unmatched (S (count NEWLINE seen))
                                (List.length (until_newline (rev seen))) k))).
  { intros k -> Hk. unfold justified, add_issue; cbn [bracket_issues].
    apply Forall_app. split; [exact J|].
    constructor; [|constructor].
    exists (List.length seen). unfold unmatched_in_family, line_of, column_of.
    cbn [issue_char issue_line issue_pos unmatched].
    rewrite nth_error_middle, firstn_prefix. auto. }
  unfold step.
  destruct (N.eqb_spec c LPAREN) as [->|N1]; [exact J|].
  destruct (N.eqb_spec c RPAREN) as [->|N2].
  { destruct (round_stack st) eqn:E; [|exact J].
    apply New; [reflexivity|]. simpl in Cr, Cs, Cc. change (opener_of RPAREN) with LPAREN. lia. }
  destruct (N.eqb_spec c LBRACKET) as [->|N3]; [exact J|].
  destruct (N.eqb_spec c RBRACKET) as [->|N4].
  { destruct (square_stack st) eqn:E; [|exact J].
    apply New; [reflexivity|]. simpl in Cr, Cs, Cc. change (opener_of RBRACKET) with LBRACKET. lia. }
  destruct (N.eqb_spec c LBRACE) as [->|N5]; [exact J|].
  destruct (N.eqb_spec c RBRACE) as [->|N6].
  { destruct (curly_stack st) eqn:E; [|exact J].
    apply New; [reflexivity|]. simpl in Cr, Cs, Cc. change (opener_of RBRACE) with LBRACE. lia. }
  exact J.
Qed.

Lemma walk_justified (text : str) :
  forall seen l p st,
    l = S (count NEWLINE seen) ->
    p = List.length (until_newline (rev seen)) ->
    counted seen st ->
    justified (seen ++ text) st ->
    justified (seen ++ text) (walk l p text st).
Proof.
  induction text as [|c text IH]; intros seen l p st Hl Hp Hc J; simpl.
  - exact J.
  - assert (J' : justified (seen ++ c :: text) (step l p c st))
      by (subst l p; now apply step_justified).
    assert (C' : counted (seen ++ [c]) (step l p c st))
      by now apply step_counted.
    assert (E : seen ++ c :: text = (seen ++ [c]) ++ text)
      by (rewrite <- app_assoc; reflexivity).
    rewrite E in *.
    destruct (N.eqb c NEWLINE) eqn:Hnl; apply IH; trivial.
    + rewrite count_snoc, Hnl. lia.
    + now rewrite column_snoc, Hnl.
    + rewrite count_snoc, Hnl. lia.
    + rewrite column_snoc, Hnl. now subst p.
Qed.

Lemma scan_justified (content : str) :
  justified content (walk 1 0 content initial).
Proof.
  change content with ([] ++ content) at 1.
  apply walk_justified; try reflexivity.
  - apply counted_initial.
  - constructor.
Qed.

End Justified.

(** ** The combined-stack scan: every closing bracket raises *)

Section SetSubscript.
Import Py DetailedBracketCheck Derived.

Lemma closer_not_opener (c : char) :
  contains c (lit ")]}") = true -> contains c (lit "([{") = false.
Proof.
  unfold contains; simpl.
  destruct (N.eqb_spec c 41) as [->|]; [reflexivity|].
  destruct (N.eqb_spec c 93) as [->|]; [reflexivity|].
  destruct (N.eqb_spec c 125) as [->|]; [reflexivity|].
  discriminate.
Qed.

Lemma scan_char_closer (n : nat) (line : str) (p : nat) (c : char)
    (st : scan_state) :
  contains c (lit ")]}") = true ->
  scan_char n line p c st = Raise set_message.
Proof.
  intros H. unfold scan_char.
  rewrite (closer_not_opener c H), H.
  unfold contains in H; simpl in H. unfold closer_index, RPAREN, RBRACKET, RBRACE.
  destruct (N.eqb c 41); [reflexivity|].
  destruct (N.eqb c 93); [reflexivity|].
  destruct (N.eqb c 125); [reflexivity|].
  discriminate.
Qed.

Lemma scan_char_other (n : nat) (line : str) (p : nat) (c : char)
    (st : scan_state) :
  contains c (lit ")]}") = false ->
  exists st', scan_char n line p c st = Return st'.
Proof.
  intros H. unfold scan_char. rewrite H.
  destruct (contains c (lit "([{")); eauto.
Qed.

Lemma scan_line_closer (n : nat) (line rest : str) :
  forall p st,
    existsb (fun c => contains c (lit ")]}")) rest = true ->
    scan_line n line p rest st = Raise set_message.
Proof.
  induction rest as [|c rest IH]; intros p st H;
    cbn [existsb scan_line] in *; [discriminate|].
  destruct (contains c (lit ")]}")) eqn:Hc.
  - now rewrite scan_char_closer.
  - destruct (scan_char_other n line p c st Hc) as [st' ->].
    cbn [bind orb] in *. now apply IH.
Qed.

Lemma scan_line_quiet (n : nat) (line rest : str) :
  forall p st,
    existsb (fun c => contains c (lit ")]}")) rest = false ->
    exists st', scan_line n line p rest st = Return st'.
Proof.
  induction rest as [|c rest IH]; intros p st H;
    cbn [existsb scan_line] in *; [eauto|].
  apply orb_false_elim in H. destruct H as [Hc Hr].
  destruct (scan_char_other n line p c st Hc) as [st' ->].
  cbn [bind]. now apply IH.
Qed.

Lemma scan_lines_closer (lines : list str) :
  forall n st,
    existsb (existsb (fun c => contains c (lit ")]}"))) lines = true ->
    scan_lines n lines st = Raise set_message.
Proof.
  induction lines as [|line lines IH]; intros n st H;
    cbn [existsb scan_lines] in *; [discriminate|].
  destruct (existsb (fun c => contains c (lit ")]}")) line) eqn:Hl.
  - now rewrite scan_line_closer.
  - destruct (scan_line_quiet n line line 0 st Hl) as [st' ->].
    cbn [bind orb] in *. now apply IH.
Qed.

Lemma closer_in_some_line (content : str) (c : char) :
  In c content ->
  contains c (lit ")]}") = true ->
  existsb (existsb (fun c => contains c (lit ")]}"))) (readlines content) = true.
Proof.
  intros Hin Hc. rewrite <- (concat_readlines content) in Hin.
  apply in_concat in Hin. destruct Hin as (line & Hline & Hcl).
  apply existsb_exists. exists line. split; [exact Hline|].
  apply existsb_exists. now exists c.
Qed.

End SetSubscript.

(** ** The combined-stack scan when no closing bracket is met *)

Section OpenOnly.
Import Py DetailedBracketCheck Spec Derived.

Lemma scan_char_open_only (n : nat) (line : str) (p : nat) (c : char)
    (st : scan_state) :
  contains c (lit ")]}") = false ->
  exists st',
    scan_char n line p c st = Return st'
    /\ line_issues st' = line_issues st
    /\ map ob_key (bracket_stack st')
       = map ob_key (bracket_stack st)
         ++ (if contains c (lit "([{") then [(c, (n, p))] else []).
Proof.
  intros H. unfold scan_char. rewrite H.
  destruct (contains c (lit "([{")).
  - eexists. split; [reflexivity|]. split; [reflexivity|].
    unfold push; cbn [bracket_stack]. now rewrite map_app.
  - exists st. now rewrite app_nil_r.
Qed.

Lemma scan_lines_unfold' (n : nat) (lines : list str) (st : scan_state) :
  scan_lines n lines st
  = match lines with
    | [] => Return st
    | line :: lines' =>
        st' <- scan_line n line 0 line st ;; scan_lines (S n) lines' st'
    end.
Proof. destruct lines; reflexivity. Qed.

Lemma scan_from_opens (text : str) :
  forall n whole p st,
    has_closer text = false ->
    exists st',
      match readlines text with
      | [] => Return st
      | line :: lines =>
          st1 <- scan_line n whole p line st ;; scan_lines (S n) lines st1
      end = Return st'
      /\ line_issues st' = line_issues st
      /\ map ob_key (bracket_stack st')
         = map ob_key (bracket_stack st) ++ opens n p text.
Proof.
  unfold has_closer.
  induction text as [|c text IH]; intros n whole p st H;
    cbn [existsb readlines opens] in *.
  - exists st. now rewrite app_nil_r.
  - apply orb_false_elim in H. destruct H as [Hc Ht].
    destruct (scan_char_open_only n whole p c st Hc) as (st1 & E1 & I1 & S1).
    destruct (N.eqb c NEWLINE) eqn:Hnl.
    + cbn [scan_line]. rewrite E1. cbn [bind].
      rewrite scan_lines_unfold'.
      destruct (readlines text) as [|line lines] eqn:Er.
      * destruct (IH (S n) [] 0 st1 Ht) as (st' & E & I & S').
        exists st'. rewrite E, I, I1, S', S1, <- app_assoc.
        repeat split. destruct (contains c (lit "([{")); reflexivity.
      * destruct (IH (S n) line 0 st1 Ht) as (st' & E & I & S').
        exists st'. rewrite E, I, I1, S', S1, <- app_assoc.
        repeat split. destruct (contains c (lit "([{")); reflexivity.
    + destruct (IH n whole (S p) st1 Ht) as (st' & E & I & S').
      exists st'. rewrite I, I1, S', S1, <- app_assoc.
      split; [|split; [reflexivity|]].
      * destruct (readlines text) as [|line lines];
          cbn [scan_line]; rewrite E1; cbn [bind]; exact E.
      * destruct (contains c (lit "([{")); reflexivity.
Qed.

Lemma scan_open_only (text : str) :
  has_closer text = false ->
  exists st,
    scan_lines 1 (readlines text) initial = Return st
    /\ line_issues st = []
    /\ map ob_key (bracket_stack st) = opens 1 0 text.
Proof.
  intros H. rewrite scan_lines_unfold'.
  destruct (readlines text) as [|line lines] eqn:Er.
  - destruct (scan_from_opens text 1 [] 0 initial H) as (st & E & I & S').
    rewrite Er in E. exists st. auto.
  - destruct (scan_from_opens text 1 line 0 initial H) as (st & E & I & S').
    rewrite Er in E. exists st. auto.
Qed.

Lemma has_closer_lines (text : str) :
  has_closer text
  = existsb (existsb (fun c => contains c (lit ")]}"))) (readlines text).
Proof.
  unfold has_closer.
  induction text as [|c text IH]; cbn [existsb readlines]; [reflexivity|].
  rewrite IH. destruct (N.eqb c NEWLINE).
  - cbn [existsb]. now rewrite orb_false_r.
  - destruct (readlines text) as [|line lines]; cbn [existsb];
      [now rewrite !orb_false_r | now rewrite orb_assoc].
Qed.

Lemma scan_returns_no_closer (text : str) (st : scan_state) :
  scan_lines 1 (readlines text) initial = Return st ->
  has_closer text = false.
Proof.
  intros H. destruct (has_closer text) eqn:E; [|reflexivity].
  rewrite has_closer_lines in E.
  rewrite (scan_lines_closer (readlines text) 1 initial E) in H.
  discriminate.
Qed.



End OpenOnly.

(** ** The exit status of final_bracket_check.py *)

Section ExitStatus.
Import Py FinalBracketCheck Derived.

Lemma critical_files_fold (fs : filesystem) (files : list path) :
  forall acc,
    critical_files (fold_left (sort_file fs) files acc)
    = critical_files acc
      ++ map (fun fp => check_file_detailed fp (fs fp))
             (filter (is_critical fs) files).
Proof.
  induction files as [|fp files IH]; intros acc; simpl.
  - now rewrite app_nil_r.
  - rewrite IH. unfold sort_file, is_critical.
    destruct (CheckBrackets.nonempty
                (critical_issues (check_file_detailed fp (fs fp)))).
    + simpl. now rewrite <- app_assoc.
    + destruct (CheckBrackets.nonempty
                  (info_patterns (check_file_detailed fp (fs fp))));
        reflexivity.
Qed.

Lemma nonempty_true (A : Type) (l : list A) :
  CheckBrackets.nonempty l = true <-> l <> [].
Proof. destruct l; simpl; split; congruence. Qed.

Lemma main_false_iff (fs : filesystem) (files : list path) :
  main fs files = false <->
  exists fp, In fp files
             /\ critical_issues (check_file_detailed fp (fs fp)) <> [].
Proof.
  unfold main, sort_files. rewrite critical_files_fold. simpl.
  split.
  - intros H.
    destruct (filter (is_critical fs) files) as [|fp l] eqn:E;
      [discriminate|].
    assert (Hin : In fp (filter (is_critical fs) files))
      by (rewrite E; now left).
    apply filter_In in Hin. destruct Hin as [Hin Hc].
    exists fp. split; [exact Hin|]. now apply nonempty_true.
  - intros (fp & Hin & Hc).
    assert (Hf : In fp (filter (is_critical fs) files)).
    { apply filter_In. split; [exact Hin|]. now apply nonempty_true. }
    destruct (filter (is_critical fs) files); [contradiction | reflexivity].
Qed.

End ExitStatus.

(** ** The loop over the files of check_brackets.py *)

Section Run.
Import Py CheckBrackets Derived.











End Run.

(** ** Prefixes of a run of one character *)

Section Repeat.
Import Py.

Lemma count_firstn_le (c : char) (s : str) :
  forall k, count c (firstn k s) <= count c s.
Proof.
  induction s as [|x s IH]; intros [|k]; simpl; try lia.
  specialize (IH k). lia.
Qed.

Lemma count_firstn_repeat (c : char) (n : nat) :
  forall k, count c (firstn k (repeat c n)) = Nat.min k n.
Proof.
  induction n as [|n IH]; intros [|k]; simpl; try reflexivity.
  rewrite N.eqb_refl, IH. reflexivity.
Qed.

End Repeat.

(** ** Consequences of the invariants for a whole text *)

Section WholeText.
Import Py CheckBrackets Walk Spec Derived.

Lemma quiet_report (content : str) :
  (forall n, count RPAREN (firstn n content) <= count LPAREN (firstn n content)) ->
  (forall n, count RBRACKET (firstn n content) <= count LBRACKET (firstn n content)) ->
  (forall n, count RBRACE (firstn n content) <= count LBRACE (firstn n content)) ->
  count LPAREN content = count RPAREN content ->
  count LBRACKET content = count RBRACKET content ->
  count LBRACE content = count RBRACE content ->
  report (walk 1 0 content initial) = [].
Proof.
  intros Pr Ps Pc Tr Ts Tc.
  assert (Hq : bracket_issues (walk 1 0 content initial) = []).
  { apply walk_quiet with (seen := []); trivial. apply counted_initial. }
  destruct (scan_counted content) as (Hr & Hs & Hc).
  unfold unmatched_of in Hr, Hs, Hc. rewrite Hq in Hr, Hs, Hc.
  simpl in Hr, Hs, Hc.
  apply report_nil. repeat split; trivial; apply length_zero_iff_nil; lia.
Qed.

Lemma report_nil_counts (content : str) :
  report (walk 1 0 content initial) = [] ->
  count LPAREN content = count RPAREN content
  /\ count LBRACKET content = count RBRACKET content
  /\ count LBRACE content = count RBRACE content.
Proof.
  intros H. apply report_nil in H. destruct H as (Hi & Hr & Hs & Hc).
  destruct (scan_counted content) as (Cr & Cs & Cc).
  unfold unmatched_of in Cr, Cs, Cc.
  rewrite Hi in Cr, Cs, Cc. rewrite Hr in Cr. rewrite Hs in Cs.
  rewrite Hc in Cc. simpl in Cr, Cs, Cc. lia.
Qed.

Lemma unclosed_in_order (c : char) (s : list position) :
  StronglySorted before s -> in_document_order (map (unclosed c) s).
Proof.
  unfold in_document_order.
  induction 1 as [|a s Hs IH Ha]; simpl; constructor; [exact IH|].
  apply Forall_map. eapply Forall_impl; [|exact Ha].
  intros b Hb. exact Hb.
Qed.


Lemma even_of_mod (n : nat) : n mod 2 = 0 -> Nat.even n = true.
Proof.
  intros H. apply Nat.even_spec. exists (n / 2).
  pose proof (Nat.div_mod_eq n 2). lia.
Qed.

Lemma count_issues_nil (t : tallies) :
  count_issues t = [] ->
  round_open t = round_close t /\ square_open t = square_close t
  /\ curly_open t = curly_close t /\ backticks t mod 2 = 0.
Proof.
  unfold count_issues. intros H.
  apply app_eq_nil in H. destruct H as [H1 H].
  apply app_eq_nil in H. destruct H as [H2 H].
  apply app_eq_nil in H. destruct H as [H3 H4].
  destruct (Nat.eqb_spec (round_open t) (round_close t)); [|discriminate].
  destruct (Nat.eqb_spec (square_open t) (square_close t)); [|discriminate].
  destruct (Nat.eqb_spec (curly_open t) (curly_close t)); [|discriminate].
  destruct (Nat.eqb_spec (backticks t mod 2) 0); [|discriminate].
  auto.
Qed.

End WholeText.

(** ** The result of the combined-stack analysis *)

Section Analysis.
Import Py DetailedBracketCheck Spec Derived.

Lemma analysis_cases (fp : path) (text : str) :
  (has_closer text = true
   /\ analyze_bracket_structure fp (Return text) = error_analysis fp set_message)
  \/ (has_closer text = false
      /\ exists st,
           scan_lines 1 (readlines text) initial = Return st
           /\ line_issues st = []
           /\ map ob_key (bracket_stack st) = opens 1 0 text
           /\ analyze_bracket_structure fp (Return text)
              = {| file := fp;
                   issues := (line_issues st
                              ++ map unclosed_issue (bracket_stack st))
                             ++ backtick_issue (count BACKTICK text);
                   total_brackets :=
                     Some {| round := (count LPAREN text, count RPAREN text);
                             square := (count LBRACKET text, count RBRACKET text);
                             curly := (count LBRACE text, count RBRACE text);
                             backticks := count BACKTICK text |} |}).
Proof.
  destruct (has_closer text) eqn:E.
  - left. split; [reflexivity|].
    unfold analyze_bracket_structure, analyze_lines. cbn [bind].
    rewrite has_closer_lines in E.
    now rewrite (scan_lines_closer (readlines text) 1 initial E).
  - right. split; [reflexivity|].
    destruct (scan_open_only text E) as (st & Es & Ei & Ek).
    exists st. repeat split; trivial.
    unfold analyze_bracket_structure, analyze_lines. cbn [bind].
    rewrite Es. cbn [bind]. now rewrite concat_readlines.
Qed.


End Analysis.

(** ** Sample runs *)

Section Samples.
Import Py.

Example lit_brackets :
  lit "()[]{}`" = [LPAREN; RPAREN; LBRACKET; RBRACKET; LBRACE; RBRACE; BACKTICK].
Proof. reflexivity. Qed.

Example readlines_keeps_newlines :
  readlines (lit "a" ++ [NEWLINE] ++ lit " b)" ++ [NEWLINE] ++ lit "{{")
  = [lit "a" ++ [NEWLINE]; lit " b)" ++ [NEWLINE]; lit "{{"].
Proof. reflexivity. Qed.

Example three_lines :
  CheckBrackets.find_bracket_position_issues
    (Return (lit "a" ++ [NEWLINE] ++ lit " b)" ++ [NEWLINE] ++ lit "{{"))
  = [lit "Line 2, pos 2: Unmatched closing )";
     lit "Line 3, pos 0: Unclosed opening {";
     lit "Line 3, pos 1: Unclosed opening {"].
Proof. reflexivity. Qed.

Example counts_of_unbalanced_text :
  CheckBrackets.count_brackets (Return (lit "[(`"))
  = [lit "ROUND BRACKETS: 1 open, 0 close";
     lit "SQUARE BRACKETS: 1 open, 0 close";
     lit "BACKTICKS: 1 (odd number)"].
Proof. reflexivity. Qed.

Example combined_stack_without_closer :
  map DetailedBracketCheck.li_issue
    (DetailedBracketCheck.issues
       (DetailedBracketCheck.analyze_bracket_structure (lit "a.js")
          (Return (lit "([`"))))
  = [lit "Unclosed ("; lit "Unclosed [";
     lit "Unmatched template literals (backticks): 1 total"].
Proof. reflexivity. Qed.

Example exit_status_of_example_tree :
  FinalBracketCheck.exit_status Derived.example_fs Derived.example_files = 1
  /\ FinalBracketCheck.exit_status Derived.example_fs [lit "a.js"] = 0.
Proof. split; reflexivity. Qed.

End Samples.

(** ** The claims *)

Section Claims.
Import Py Spec Walk Derived.

(** C1.  On the text ["(]"] the combined-stack scan of
    detailed_bracket_check.py is written to report one mismatch at
    column 1 for the round bracket opened at column 0.  It does not get
    there: the closing branch first subscripts a set, the [TypeError] is
    caught by the function's own handler, and the file is reported as a
    read error without bracket totals.  The per-family scan of
    check_brackets.py reports the same text as an unmatched [']'] at
    column 1 followed by an unclosed ['('] at column 0. *)
Theorem C1_mismatch_lost_to_set_subscript (fp : path) :
  DetailedBracketCheck.analyze_bracket_structure fp (Return (lit "(]"))
  = DetailedBracketCheck.error_analysis fp set_message
  /\ CheckBrackets.find_bracket_position_issues (Return (lit "(]"))
     = [lit "Line 1, pos 1: Unmatched closing ]";
        lit "Line 1, pos 0: Unclosed opening ("].
Proof. split; reflexivity. Qed.

(** C2.  In detailed_bracket_check.py every text that holds a closing
    bracket, well nested or not, makes the scanning loop raise; the
    result is the one the handler builds for a file that could not be
    read. *)
Theorem C2_closing_bracket_raises (fp : path) (content : str) (c : char)
    (Hin : In c content) (Hc : contains c (lit ")]}") = true) :
  DetailedBracketCheck.analyze_bracket_structure fp (Return content)
  = DetailedBracketCheck.error_analysis fp set_message.
Proof.
  unfold DetailedBracketCheck.analyze_bracket_structure,
    DetailedBracketCheck.analyze_lines.
  cbn [bind].
  rewrite scan_lines_closer by (eapply closer_in_some_line; eassumption).
  reflexivity.
Qed.

Lemma C2_closing_bracket_raises_witness :
  In RPAREN (lit ")")
  /\ contains RPAREN (lit ")]}") = true
  /\ DetailedBracketCheck.analyze_bracket_structure (lit "a.js")
       (Return (lit ")"))
     = DetailedBracketCheck.error_analysis (lit "a.js") set_message.
Proof.
  split; [simpl; auto|]. split; [reflexivity|].
  apply (@C2_closing_bracket_raises (lit "a.js") (lit ")") RPAREN);
    [simpl; auto | reflexivity].
Defined.

(** The per-family scan of check_brackets.py, by contrast, never raises:
    its [pop] calls are guarded. *)
Lemma find_bracket_position_issues_total (content : str) :
  exists issues,
    CheckBrackets.position_issues content = Return issues
    /\ CheckBrackets.find_bracket_position_issues (Return content)
       = map CheckBrackets.format_issue issues.
Proof.
  eexists. split; [apply position_issues_walk | apply find_issues_walk].
Qed.




(** C5.  If neither the count check nor the positional scan of
    check_brackets.py reports anything for a text, the scan ends with
    its three stacks empty and the backtick tally is even. *)
Theorem C5_no_diagnostic_leaves_empty_stacks (content : str)
    (Hbasic : CheckBrackets.count_brackets (Return content) = [])
    (Hpos : CheckBrackets.find_bracket_position_issues (Return content) = []) :
  exists st,
    CheckBrackets.scan content = Return st
    /\ CheckBrackets.round_stack st = []
    /\ CheckBrackets.square_stack st = []
    /\ CheckBrackets.curly_stack st = []
    /\ Nat.even (CheckBrackets.backticks (CheckBrackets.tally content)) = true.
Proof.
  exists (walk 1 0 content CheckBrackets.initial).
  apply find_issues_nil, report_nil in Hpos.
  destruct Hpos as (_ & Hr & Hs & Hc).
  apply count_issues_nil in Hbasic.
  destruct Hbasic as (_ & _ & _ & Hb).
  repeat split; trivial; [apply scan_walk | now apply even_of_mod].
Qed.

Lemma C5_no_diagnostic_leaves_empty_stacks_witness :
  exists st,
    CheckBrackets.scan (lit "f(`a[0]`, {})") = Return st
    /\ CheckBrackets.round_stack st = []
    /\ CheckBrackets.square_stack st = []
    /\ CheckBrackets.curly_stack st = []
    /\ Nat.even (CheckBrackets.backticks
                   (CheckBrackets.tally (lit "f(`a[0]`, {})"))) = true.
Proof.
  apply (@C5_no_diagnostic_leaves_empty_stacks (lit "f(`a[0]`, {})"));
    reflexivity.
Defined.

(** C6.  For every [n], the text made of [n] opening round brackets
    followed by [n] closing ones gets no diagnostic from check_brackets.py,
    neither from the positional scan nor from the count check, and its
    round tallies are [n] and [n]. *)
Theorem C6_nested_round_brackets (n : nat) :
  CheckBrackets.find_bracket_position_issues
    (Return (repeat LPAREN n ++ repeat RPAREN n)) = []
  /\ CheckBrackets.count_brackets
       (Return (repeat LPAREN n ++ repeat RPAREN n)) = []
  /\ CheckBrackets.round_open
       (CheckBrackets.tally (repeat LPAREN n ++ repeat RPAREN n)) = n
  /\ CheckBrackets.round_close
       (CheckBrackets.tally (repeat LPAREN n ++ repeat RPAREN n)) = n.
Proof.
  assert (other : forall c, N.eqb LPAREN c = false -> N.eqb RPAREN c = false ->
                  count c (repeat LPAREN n ++ repeat RPAREN n) = 0).
  { intros c H1 H2. rewrite count_app, !count_repeat_other by assumption.
    reflexivity. }
  assert (Ho : count LPAREN (repeat LPAREN n ++ repeat RPAREN n) = n).
  { rewrite count_app, count_repeat_same, count_repeat_other by reflexivity.
    lia. }
  assert (Hc : count RPAREN (repeat LPAREN n ++ repeat RPAREN n) = n).
  { rewrite count_app, count_repeat_same, count_repeat_other by reflexivity.
    reflexivity. }
  split; [|split; [|split; [exact Ho | exact Hc]]].
  - apply find_issues_nil, quiet_report.
    + intros k. rewrite firstn_app, !count_app, repeat_length.
      rewrite !count_firstn_repeat.
      pose proof (count_firstn_le RPAREN (repeat LPAREN n) k) as H1.
      pose proof (count_firstn_le LPAREN (repeat RPAREN n) (k - n)) as H2.
      rewrite count_repeat_other in H1, H2 by reflexivity. lia.
    + intros k.
      pose proof (count_firstn_le RBRACKET (repeat LPAREN n ++ repeat RPAREN n) k).
      rewrite other in * by reflexivity. lia.
    + intros k.
      pose proof (count_firstn_le RBRACE (repeat LPAREN n ++ repeat RPAREN n) k).
      rewrite other in * by reflexivity. lia.
    + now rewrite Ho, Hc.
    + now rewrite !other by reflexivity.
    + now rewrite !other by reflexivity.
  - unfold CheckBrackets.count_brackets, CheckBrackets.count_issues,
      CheckBrackets.tally. cbn [bind CheckBrackets.round_open
      CheckBrackets.round_close CheckBrackets.square_open
      CheckBrackets.square_close CheckBrackets.curly_open
      CheckBrackets.curly_close CheckBrackets.backticks].
    rewrite Ho, Hc, !other by reflexivity.
    rewrite Nat.eqb_refl. reflexivity.
Qed.


(** C8.  final_bracket_check.py exits with a non-zero status exactly
    when some scanned file has a critical issue, and with status 0
    exactly when none has; a file has a critical issue exactly when it
    could not be read, or the tallies of a bracket family differ, or the
    backtick tally is odd. *)
Theorem C8_exit_status (fs : filesystem) (files : list path) :
  (FinalBracketCheck.exit_status fs files <> 0 <->
   exists fp, In fp files
              /\ FinalBracketCheck.critical_issues
                   (FinalBracketCheck.check_file_detailed fp (fs fp)) <> [])
  /\ (FinalBracketCheck.exit_status fs files = 0 <->
      forall fp, In fp files ->
                 FinalBracketCheck.critical_issues
                   (FinalBracketCheck.check_file_detailed fp (fs fp)) = [])
  /\ (forall fp,
        FinalBracketCheck.critical_issues
          (FinalBracketCheck.check_file_detailed fp (fs fp)) <> [] <->
        match fs fp with
        | Raise _ => True
        | Return content =>
            count LPAREN content <> count RPAREN content
            \/ count LBRACKET content <> count RBRACKET content
            \/ count LBRACE content <> count RBRACE content
            \/ count BACKTICK content mod 2 <> 0
        end).
Proof.
  pose proof (main_false_iff fs files) as M.
  unfold FinalBracketCheck.exit_status.
  split; [|split].
  - rewrite <- M. destruct (FinalBracketCheck.main fs files);
      split; congruence.
  - destruct (FinalBracketCheck.main fs files) eqn:E.
    + split; [|reflexivity]. intros _ fp Hin.
      destruct (FinalBracketCheck.critical_issues
                  (FinalBracketCheck.check_file_detailed fp (fs fp))) eqn:Ec;
        [reflexivity|].
      assert (true = false); [|discriminate].
      apply M. exists fp. split; [exact Hin|]. rewrite Ec. discriminate.
    + split; [discriminate|]. intros H.
      destruct (proj1 M eq_refl) as (fp & Hin & Hc).
      elim Hc. now apply H.
  - intros fp. unfold FinalBracketCheck.check_file_detailed.
    destruct (fs fp) as [content|e]; cbn [bind].
    + unfold FinalBracketCheck.check_content,
        FinalBracketCheck.pairing_issues.
      cbn [FinalBracketCheck.critical_issues].
      destruct (Nat.eqb_spec (count LPAREN content) (count RPAREN content));
      destruct (Nat.eqb_spec (count LBRACKET content) (count RBRACKET content));
      destruct (Nat.eqb_spec (count LBRACE content) (count RBRACE content));
      destruct (Nat.eqb_spec (count BACKTICK content mod 2) 0);
        simpl; split; intros H; try tauto; try discriminate;
        try (exfalso; now apply H).
    + simpl. split; [trivial | discriminate].
Qed.

(** C9.  A text in which each bracket family, taken alone, is balanced
    gets no diagnostic from the positional scan of check_brackets.py,
    however the families interleave.  On any text that scan reports a
    closing bracket only when it is unmatched within its own family,
    whatever brackets of the other families are open, and otherwise
    reports opening brackets as unclosed: it has no diagnostic for a
    mismatch between families. *)
Theorem C9_families_scanned_apart (content other : str)
    (H : families_balanced content = true) :
  CheckBrackets.find_bracket_position_issues (Return content) = []
  /\ exists issues,
       CheckBrackets.position_issues other = Return issues
       /\ Forall (fun i =>
                    match CheckBrackets.issue_kind_of i with
                    | CheckBrackets.Unmatched_closing =>
                        is_closer (CheckBrackets.issue_char i) = true
                        /\ exists n,
                             unmatched_in_family other n (CheckBrackets.issue_char i)
                             /\ line_of other n = CheckBrackets.issue_line i
                             /\ column_of other n = CheckBrackets.issue_pos i
                    | CheckBrackets.Unclosed_opening =>
                        is_opener (CheckBrackets.issue_char i) = true
                    end)
                 issues.
Proof.
  split.
  - unfold families_balanced in H.
    apply andb_prop in H. destruct H as [H Hc].
    apply andb_prop in H. destruct H as [Hr Hs].
    apply balanced_family_spec in Hr, Hs, Hc.
    destruct Hr as [Pr Tr], Hs as [Ps Ts], Hc as [Pc Tc].
    apply find_issues_nil, quiet_report; assumption.
  - exists (CheckBrackets.report (walk 1 0 other CheckBrackets.initial)).
    split; [apply position_issues_walk|].
    destruct (scan_located other) as (_ & _ & _ & Li).
    pose proof (scan_justified other) as Lj. unfold justified in Lj.
    unfold CheckBrackets.report.
    repeat (apply Forall_app; split).
    + rewrite Forall_forall in *. intros i Hi.
      destruct (Li i Hi) as (Hk & Hcl & _). rewrite Hk.
      split; [exact Hcl | exact (Lj i Hi)].
    + apply Forall_map, Forall_forall. intros e _. reflexivity.
    + apply Forall_map, Forall_forall. intros e _. reflexivity.
    + apply Forall_map, Forall_forall. intros e _. reflexivity.
Qed.

Lemma C9_families_scanned_apart_witness :
  families_balanced (lit "([)]") = true
  /\ CheckBrackets.find_bracket_position_issues (Return (lit "([)]")) = []
  /\ exists issues,
       CheckBrackets.position_issues (lit "(]") = Return issues
       /\ Forall (fun i =>
                    match CheckBrackets.issue_kind_of i with
                    | CheckBrackets.Unmatched_closing =>
                        is_closer (CheckBrackets.issue_char i) = true
                        /\ exists n,
                             unmatched_in_family (lit "(]") n
                               (CheckBrackets.issue_char i)
                             /\ line_of (lit "(]") n = CheckBrackets.issue_line i
                             /\ column_of (lit "(]") n = CheckBrackets.issue_pos i
                    | CheckBrackets.Unclosed_opening =>
                        is_opener (CheckBrackets.issue_char i) = true
                    end)
                 issues.
Proof.
  split; [reflexivity|].
  apply (@C9_families_scanned_apart (lit "([)]") (lit "(]")). reflexivity.
Defined.

(** C10.  If the positional scan of check_brackets.py reports nothing
    for a text, the tallies of [count_brackets] agree family by family,
    so that the count check can only report the backticks. *)
Theorem C10_scan_subsumes_counts (content : str)
    (H : CheckBrackets.find_bracket_position_issues (Return content) = []) :
  CheckBrackets.round_open (CheckBrackets.tally content)
  = CheckBrackets.round_close (CheckBrackets.tally content)
  /\ CheckBrackets.square_open (CheckBrackets.tally content)
     = CheckBrackets.square_close (CheckBrackets.tally content)
  /\ CheckBrackets.curly_open (CheckBrackets.tally content)
     = CheckBrackets.curly_close (CheckBrackets.tally content)
  /\ CheckBrackets.count_brackets (Return content)
     = if Nat.eqb (count BACKTICK content mod 2) 0 then []
       else [lit "BACKTICKS: " ++ dec (count BACKTICK content)
               ++ lit " (odd number)"].
Proof.
  apply find_issues_nil, report_nil_counts in H.
  destruct H as (Hr & Hs & Hc).
  unfold CheckBrackets.count_brackets, CheckBrackets.count_issues,
    CheckBrackets.tally. cbn [bind CheckBrackets.round_open
    CheckBrackets.round_close CheckBrackets.square_open
    CheckBrackets.square_close CheckBrackets.curly_open
    CheckBrackets.curly_close CheckBrackets.backticks].
  rewrite Hr, Hs, Hc, !Nat.eqb_refl. auto.
Qed.

Lemma C10_scan_subsumes_counts_witness :
  CheckBrackets.round_open (CheckBrackets.tally (lit "`([)]"))
  = CheckBrackets.round_close (CheckBrackets.tally (lit "`([)]"))
  /\ CheckBrackets.square_open (CheckBrackets.tally (lit "`([)]"))
     = CheckBrackets.square_close (CheckBrackets.tally (lit "`([)]"))
  /\ CheckBrackets.curly_open (CheckBrackets.tally (lit "`([)]"))
     = CheckBrackets.curly_close (CheckBrackets.tally (lit "`([)]"))
  /\ CheckBrackets.count_brackets (Return (lit "`([)]"))
     = if Nat.eqb (count BACKTICK (lit "`([)]") mod 2) 0 then []
       else [lit "BACKTICKS: " ++ dec (count BACKTICK (lit "`([)]"))
               ++ lit " (odd number)"].
Proof.
  apply (@C10_scan_subsumes_counts (lit "`([)]")). reflexivity.
Defined.



End Claims.

(** ** Further properties: the count checks *)

From Stdlib Require Import Permutation DecimalNat.

Section CountChecks.
Import Py Spec Walk Derived More.

Lemma count_Permutation (c : char) (a b : str) :
  Permutation a b -> count c a = count c b.
Proof.
  induction 1 as [|x a b _ IH|x y a|a b d _ IH1 _ IH2]; simpl; lia.
Qed.

Lemma count_brackets_nil_of_counts (content : str) :
  count LPAREN content = count RPAREN content ->
  count LBRACKET content = count RBRACKET content ->
  count LBRACE content = count RBRACE content ->
  Nat.even (count BACKTICK content) = true ->
  CheckBrackets.count_brackets (Return content) = [].
Proof.
  intros Hr Hs Hc Hb.
  unfold CheckBrackets.count_brackets, CheckBrackets.count_issues,
    CheckBrackets.tally. cbn [bind CheckBrackets.round_open
    CheckBrackets.round_close CheckBrackets.square_open
    CheckBrackets.square_close CheckBrackets.curly_open
    CheckBrackets.curly_close CheckBrackets.backticks].
  rewrite Hr, Hs, Hc, !Nat.eqb_refl.
  apply Nat.even_spec in Hb. destruct Hb as [m Hm].
  rewrite Hm, Nat.mul_comm, Nat.Div0.mod_mul. reflexivity.
Qed.

Lemma count_lengths_agree (fp : path) (f : result str) :
  List.length (CheckBrackets.count_brackets f)
  = List.length (FinalBracketCheck.critical_issues
                   (FinalBracketCheck.check_file_detailed fp f))
  /\ List.length (CheckBrackets.count_brackets f)
     = List.length (BracketCheck.issues
                      (BracketCheck.check_file_brackets fp f)).
Proof.
  destruct f as [content|e]; [|split; reflexivity].
  unfold CheckBrackets.count_brackets, CheckBrackets.count_issues,
    CheckBrackets.tally, FinalBracketCheck.check_file_detailed,
    FinalBracketCheck.check_content, FinalBracketCheck.pairing_issues,
    BracketCheck.check_file_brackets, BracketCheck.check_content,
    BracketCheck.count_issues.
  cbn [bind FinalBracketCheck.critical_issues BracketCheck.issues
       CheckBrackets.round_open
       CheckBrackets.round_close CheckBrackets.square_open
       CheckBrackets.square_close CheckBrackets.curly_open
       CheckBrackets.curly_close CheckBrackets.backticks].
  destruct (Nat.eqb (count LPAREN content) (count RPAREN content));
  destruct (Nat.eqb (count LBRACKET content) (count RBRACKET content));
  destruct (Nat.eqb (count LBRACE content) (count RBRACE content));
  destruct (Nat.eqb (count BACKTICK content mod 2) 0);
    split; reflexivity.
Qed.

(** X1.  For a text that was read, [count_brackets] returns no message
    exactly when the openers and closers of each family are equally
    many and the backticks are evenly many. *)
Theorem X1_count_brackets_passes_iff (content : str) :
  CheckBrackets.count_brackets (Return content) = [] <->
  count LPAREN content = count RPAREN content
  /\ count LBRACKET content = count RBRACKET content
  /\ count LBRACE content = count RBRACE content
  /\ Nat.even (count BACKTICK content) = true.
Proof.
  split.
  - intros H. apply count_issues_nil in H.
    destruct H as (Hr & Hs & Hc & Hb). repeat split; trivial.
    now apply even_of_mod.
  - intros (Hr & Hs & Hc & Hb). now apply count_brackets_nil_of_counts.
Qed.

(** X2.  The count checks of the three scripts see only how many of
    each character a text holds: two texts that are rearrangements of
    one another get the same messages, so that ")(" passes like "()". *)
Theorem X2_count_checks_ignore_order (fp : path) (a b : str)
    (H : Permutation a b) :
  CheckBrackets.count_brackets (Return a)
  = CheckBrackets.count_brackets (Return b)
  /\ FinalBracketCheck.critical_issues
       (FinalBracketCheck.check_file_detailed fp (Return a))
     = FinalBracketCheck.critical_issues
         (FinalBracketCheck.check_file_detailed fp (Return b))
  /\ BracketCheck.check_file_brackets fp (Return a)
     = BracketCheck.check_file_brackets fp (Return b).
Proof.
  unfold CheckBrackets.count_brackets, CheckBrackets.tally,
    FinalBracketCheck.check_file_detailed, FinalBracketCheck.check_content,
    BracketCheck.check_file_brackets, BracketCheck.check_content.
  cbn [bind FinalBracketCheck.critical_issues].
  rewrite !(fun c => count_Permutation c H). auto.
Qed.

Lemma X2_count_checks_ignore_order_witness :
  Permutation (lit "()") (lit ")(")
  /\ CheckBrackets.count_brackets (Return (lit ")(")) = []
  /\ FinalBracketCheck.critical_issues
       (FinalBracketCheck.check_file_detailed (lit "a.js") (Return (lit ")(")))
     = []
  /\ BracketCheck.issues
       (BracketCheck.check_file_brackets (lit "a.js") (Return (lit ")(")))
     = [].
Proof.
  assert (P : Permutation (lit "()") (lit ")(")) by apply perm_swap.
  split; [exact P|].
  destruct (@X2_count_checks_ignore_order (lit "a.js") _ _ P) as (H1 & H2 & H3).
  rewrite <- H1, <- H2, <- H3. repeat split.
Defined.

(** X3.  Whatever reading a file yields, [count_brackets],
    [check_file_detailed] and [check_file_brackets] return equally many
    count messages; in particular they pass the same files. *)
Theorem X3_count_checks_agree (fp : path) (f : result str) :
  List.length (CheckBrackets.count_brackets f)
  = List.length (FinalBracketCheck.critical_issues
                   (FinalBracketCheck.check_file_detailed fp f))
  /\ List.length (CheckBrackets.count_brackets f)
     = List.length (BracketCheck.issues
                      (BracketCheck.check_file_brackets fp f))
  /\ (CheckBrackets.count_brackets f = [] <->
      FinalBracketCheck.critical_issues
        (FinalBracketCheck.check_file_detailed fp f) = [])
  /\ (CheckBrackets.count_brackets f = [] <->
      BracketCheck.issues (BracketCheck.check_file_brackets fp f) = []).
Proof.
  destruct (count_lengths_agree fp f) as [L1 L2].
  repeat split; trivial; intros H;
    apply length_zero_iff_nil; apply length_zero_iff_nil in H; lia.
Qed.

Lemma plain_count (text : str) (c : char) :
  plain text = true ->
  (N.eqb c LPAREN || N.eqb c RPAREN || N.eqb c LBRACKET || N.eqb c RBRACKET
   || N.eqb c LBRACE || N.eqb c RBRACE || N.eqb c BACKTICK) = true ->
  count c text = 0.
Proof.
  intros H Hc. induction text as [|x text IH]; [reflexivity|].
  simpl in H. apply andb_prop in H. destruct H as [Hx Ht].
  simpl. rewrite (IH Ht).
  destruct (N.eqb_spec x c) as [->|]; [|reflexivity].
  rewrite Hc in Hx. discriminate.
Qed.

Lemma plain_no_closer (text : str) : plain text = true -> has_closer text = false.
Proof.
  unfold has_closer. induction text as [|x text IH]; [reflexivity|].
  cbn [plain forallb existsb]. intros H.
  apply andb_prop in H. destruct H as [Hx Ht].
  rewrite (IH Ht), orb_false_r.
  unfold contains. simpl. unfold RPAREN, RBRACKET, RBRACE in Hx.
  destruct (N.eqb x 41); [now rewrite !orb_true_r in Hx|].
  destruct (N.eqb x 93); [now rewrite !orb_true_r in Hx|].
  destruct (N.eqb x 125); [now rewrite !orb_true_r in Hx|].
  reflexivity.
Qed.

Lemma plain_opens (text : str) :
  plain text = true -> forall l p, opens l p text = [].
Proof.
  induction text as [|x text IH]; intros H l p; [reflexivity|].
  simpl in H. apply andb_prop in H. destruct H as [Hx Ht].
  cbn [opens]. rewrite !(IH Ht).
  assert (E : contains x (lit "([{") = false).
  { unfold contains. simpl. unfold LPAREN, LBRACKET, LBRACE in Hx.
    destruct (N.eqb x 40); [discriminate|].
    destruct (N.eqb x 91); [now rewrite !orb_true_r in Hx|].
    destruct (N.eqb x 123); [now rewrite !orb_true_r in Hx|].
    reflexivity. }
  rewrite E. destruct (N.eqb x NEWLINE); reflexivity.
Qed.

Lemma plain_text_clean (fp : path) (text : str)
    (H : plain text = true) :
  CheckBrackets.count_brackets (Return text) = []
  /\ CheckBrackets.find_bracket_position_issues (Return text) = []
  /\ DetailedBracketCheck.analyze_bracket_structure fp (Return text)
     = {| DetailedBracketCheck.file := fp;
          DetailedBracketCheck.issues := [];
          DetailedBracketCheck.total_brackets :=
            Some {| DetailedBracketCheck.round := (0, 0);
                    DetailedBracketCheck.square := (0, 0);
                    DetailedBracketCheck.curly := (0, 0);
                    DetailedBracketCheck.backticks := 0 |} |}
  /\ FinalBracketCheck.critical_issues
       (FinalBracketCheck.check_file_detailed fp (Return text)) = []
  /\ BracketCheck.issues (BracketCheck.check_file_brackets fp (Return text))
     = [].
Proof.
  assert (Z1 : count LPAREN text = 0) by now apply plain_count.
  assert (Z2 : count RPAREN text = 0) by now apply plain_count.
  assert (Z3 : count LBRACKET text = 0) by now apply plain_count.
  assert (Z4 : count RBRACKET text = 0) by now apply plain_count.
  assert (Z5 : count LBRACE text = 0) by now apply plain_count.
  assert (Z6 : count RBRACE text = 0) by now apply plain_count.
  assert (Z7 : count BACKTICK text = 0) by now apply plain_count.
  assert (C : CheckBrackets.count_brackets (Return text) = []).
  { apply count_brackets_nil_of_counts; try lia. now rewrite Z7. }
  split; [exact C|].
  split.
  - apply find_issues_nil, quiet_report; try lia; intros n.
    + pose proof (count_firstn_le RPAREN text n). lia.
    + pose proof (count_firstn_le RBRACKET text n). lia.
    + pose proof (count_firstn_le RBRACE text n). lia.
  - split; [|].
    + destruct (analysis_cases fp text) as [[E _]|[_ (st & _ & Ei & Ek & E)]].
      * rewrite plain_no_closer in E by assumption. discriminate.
      * rewrite E, Ei, Z1, Z2, Z3, Z4, Z5, Z6, Z7.
        rewrite plain_opens in Ek by assumption.
        apply map_eq_nil in Ek. rewrite Ek. reflexivity.
    + destruct (count_lengths_agree fp (Return text)) as [L1 L2].
      rewrite C in L1, L2. change (List.length (@nil str)) with 0 in L1, L2.
      split; apply length_zero_iff_nil; lia.
Qed.

End CountChecks.

(** ** Further properties: the positional scan of check_brackets.py *)

Section MoreOnScan.
Import Py Spec Walk Derived More.

Lemma filter_const_length (A : Type) (f : A -> bool) (b : bool) (l : list A) :
  Forall (fun x => f x = b) l ->
  List.length (filter f l) = if b then List.length l else 0.
Proof.
  induction 1 as [|x l Hx _ IH]; simpl.
  - now destruct b.
  - rewrite Hx. destruct b; simpl; now rewrite IH.
Qed.

Lemma filter_same (A : Type) (f g : A -> bool) (l : list A) :
  Forall (fun x => f x = g x) l -> filter f l = filter g l.
Proof.
  induction 1 as [|x l Hx _ IH]; simpl; [reflexivity|].
  now rewrite Hx, IH.
Qed.

Lemma reported_unmatched (st : CheckBrackets.scan_state) (k : char) :
  Forall (fun i => CheckBrackets.issue_kind_of i = CheckBrackets.Unmatched_closing)
         (CheckBrackets.bracket_issues st) ->
  reported CheckBrackets.Unmatched_closing k (CheckBrackets.report st)
  = unmatched_of k st.
Proof.
  intros H. unfold reported, CheckBrackets.report, unmatched_of.
  rewrite !filter_app, !length_app.
  rewrite (@filter_const_length _ _ false
             (map (CheckBrackets.unclosed LPAREN) _))
    by (apply Forall_map, Forall_forall; reflexivity).
  rewrite (@filter_const_length _ _ false
             (map (CheckBrackets.unclosed LBRACKET) _))
    by (apply Forall_map, Forall_forall; reflexivity).
  rewrite (@filter_const_length _ _ false
             (map (CheckBrackets.unclosed LBRACE) _))
    by (apply Forall_map, Forall_forall; reflexivity).
  rewrite !Nat.add_0_r. f_equal. apply filter_same.
  eapply Forall_impl; [|exact H]. intros i Hi. now rewrite Hi.
Qed.

Lemma reported_unclosed (st : CheckBrackets.scan_state) :
  Forall (fun i => CheckBrackets.issue_kind_of i = CheckBrackets.Unmatched_closing)
         (CheckBrackets.bracket_issues st) ->
  reported CheckBrackets.Unclosed_opening LPAREN (CheckBrackets.report st)
  = List.length (CheckBrackets.round_stack st)
  /\ reported CheckBrackets.Unclosed_opening LBRACKET (CheckBrackets.report st)
     = List.length (CheckBrackets.square_stack st)
  /\ reported CheckBrackets.Unclosed_opening LBRACE (CheckBrackets.report st)
     = List.length (CheckBrackets.curly_stack st).
Proof.
  intros H. unfold reported, CheckBrackets.report.
  rewrite !filter_app, !length_app.
  assert (Hi : forall c,
             List.length
               (filter (fun i =>
                          match CheckBrackets.issue_kind_of i with
                          | CheckBrackets.Unmatched_closing => false
                          | CheckBrackets.Unclosed_opening =>
                              N.eqb (CheckBrackets.issue_char i) c
                          end) (CheckBrackets.bracket_issues st)) = 0).
  { intros c. rewrite (@filter_const_length _ _ false); [reflexivity|].
    eapply Forall_impl; [|exact H]. intros i E. now rewrite E. }
  assert (Hm : forall c o s,
             List.length
               (filter (fun i =>
                          match CheckBrackets.issue_kind_of i with
                          | CheckBrackets.Unmatched_closing => false
                          | CheckBrackets.Unclosed_opening =>
                              N.eqb (CheckBrackets.issue_char i) c
                          end) (map (CheckBrackets.unclosed o) s))
             = if N.eqb o c then List.length s else 0).
  { intros c o s. rewrite (@filter_const_length _ _ (N.eqb o c)).
    - now rewrite length_map.
    - apply Forall_map, Forall_forall. reflexivity. }
  rewrite !Hi, !Hm. cbn. repeat split; lia.
Qed.

(** X4.  In the report of the positional scan of check_brackets.py, for
    each family, the openers of the text plus the closers reported as
    unmatched are as many as the closers of the text plus the openers
    reported as unclosed. *)
Theorem X4_report_accounts_for_tallies (content : str) :
  exists issues,
    CheckBrackets.position_issues content = Return issues
    /\ count LPAREN content
       + reported CheckBrackets.Unmatched_closing RPAREN issues
       = count RPAREN content
         + reported CheckBrackets.Unclosed_opening LPAREN issues
    /\ count LBRACKET content
       + reported CheckBrackets.Unmatched_closing RBRACKET issues
       = count RBRACKET content
         + reported CheckBrackets.Unclosed_opening LBRACKET issues
    /\ count LBRACE content
       + reported CheckBrackets.Unmatched_closing RBRACE issues
       = count RBRACE content
         + reported CheckBrackets.Unclosed_opening LBRACE issues.
Proof.
  exists (CheckBrackets.report (walk 1 0 content CheckBrackets.initial)).
  split; [apply position_issues_walk|].
  destruct (scan_located content) as (_ & _ & _ & Li).
  assert (K : Forall (fun i => CheckBrackets.issue_kind_of i
                               = CheckBrackets.Unmatched_closing)
                (CheckBrackets.bracket_issues
                   (walk 1 0 content CheckBrackets.initial))).
  { eapply Forall_impl; [|exact Li]. intros i Hi. apply Hi. }
  rewrite !(fun k => reported_unmatched _ k K).
  destruct (reported_unclosed _ K) as (-> & -> & ->).
  exact (scan_counted content).
Qed.

(** *** Messages determine their diagnostics *)

Lemma map_chr_inj (a b : list ascii) : map chr a = map chr b -> a = b.
Proof.
  revert b. induction a as [|x a IH]; intros [|y b] H; simpl in H;
    try discriminate; [reflexivity|].
  injection H as Hx Hr. f_equal; [|now apply IH].
  unfold chr in Hx. rewrite <- (ascii_N_embedding x), <- (ascii_N_embedding y).
  now rewrite Hx.
Qed.

Lemma lit_inj (s t : string) : lit s = lit t -> s = t.
Proof.
  unfold lit. intros H. apply map_chr_inj in H.
  rewrite <- (string_of_list_ascii_of_string s),
          <- (string_of_list_ascii_of_string t).
  now rewrite H.
Qed.

Lemma dec_inj (n m : nat) : dec n = dec m -> n = m.
Proof.
  unfold dec. intros H. apply lit_inj in H.
  assert (E : Some (Nat.to_uint n) = Some (Nat.to_uint m))
    by (rewrite <- !NilEmpty.usu; now rewrite H).
  injection E as E.
  rewrite <- (DecimalNat.Unsigned.of_to n), <- (DecimalNat.Unsigned.of_to m).
  now rewrite E.
Qed.

Lemma digits_of_uint (d : Decimal.uint) :
  Forall is_digit (lit (NilEmpty.string_of_uint d)).
Proof.
  unfold is_digit.
  induction d; simpl; constructor; trivial; cbv; split; discriminate.
Qed.

Lemma dec_digits (n : nat) : Forall is_digit (dec n).
Proof. apply digits_of_uint. Qed.

Lemma split_at_separator (sep : char) (a b r1 r2 : str) :
  Forall (fun c => c <> sep) a ->
  Forall (fun c => c <> sep) b ->
  a ++ sep :: r1 = b ++ sep :: r2 ->
  a = b /\ r1 = r2.
Proof.
  intros Ha. revert b. induction Ha as [|x a Hx _ IH]; intros b Hb H.
  - destruct Hb as [|y b Hy _]; simpl in H.
    + injection H as ->. auto.
    + injection H as E _. congruence.
  - destruct Hb as [|y b Hy Hb]; simpl in H.
    + injection H as E _. congruence.
    + injection H as -> H. destruct (IH b Hb H) as [-> ->]. auto.
Qed.

Lemma dec_without (sep : char) (n : nat) :
  ~ is_digit sep -> Forall (fun c => c <> sep) (dec n).
Proof.
  intros Hs. eapply Forall_impl; [|apply dec_digits].
  intros c Hc ->. exact (Hs Hc).
Qed.

Lemma format_issue_inj (i j : CheckBrackets.position_issue) :
  CheckBrackets.format_issue i = CheckBrackets.format_issue j -> i = j.
Proof.
  destruct i as [l p k c], j as [l' p' k' c'].
  unfold CheckBrackets.format_issue.
  cbn [CheckBrackets.issue_line CheckBrackets.issue_pos
       CheckBrackets.issue_kind_of CheckBrackets.issue_char].
  intros H. apply app_inv_head in H.
  change (lit ", pos ") with (44%N :: lit " pos ") in H.
  rewrite <- !app_comm_cons in H.
  apply split_at_separator in H;
    try (apply dec_without; unfold is_digit; lia).
  destruct H as [El H]. apply dec_inj in El. subst l'.
  apply app_inv_head in H.
  change (lit ": ") with (58%N :: lit " ") in H.
  rewrite <- !app_comm_cons in H.
  apply split_at_separator in H;
    try (apply dec_without; unfold is_digit; lia).
  destruct H as [Ep H]. apply dec_inj in Ep. subst p'.
  apply app_inv_head in H.
  destruct k, k'; try (cbv in H; discriminate);
    apply app_inv_head in H; injection H as ->; reflexivity.
Qed.

(** X7.  The message of a positional diagnostic of check_brackets.py
    determines its line, its column, its kind and its character: two
    diagnostics with the same message are the same. *)
Theorem X7_message_determines_diagnostic (i j : CheckBrackets.position_issue)
    (H : CheckBrackets.format_issue i = CheckBrackets.format_issue j) :
  CheckBrackets.issue_line i = CheckBrackets.issue_line j
  /\ CheckBrackets.issue_pos i = CheckBrackets.issue_pos j
  /\ CheckBrackets.issue_kind_of i = CheckBrackets.issue_kind_of j
  /\ CheckBrackets.issue_char i = CheckBrackets.issue_char j.
Proof. apply format_issue_inj in H. subst j. auto. Qed.

Lemma X7_message_determines_diagnostic_witness :
  CheckBrackets.format_issue (CheckBrackets.unmatched 12 3 RPAREN)
  = lit "Line 12, pos 3: Unmatched closing )"
  /\ CheckBrackets.issue_line (CheckBrackets.unmatched 12 3 RPAREN) = 12
  /\ CheckBrackets.issue_pos (CheckBrackets.unmatched 12 3 RPAREN) = 3.
Proof.
  split; [reflexivity|].
  destruct (@X7_message_determines_diagnostic
              (CheckBrackets.unmatched 12 3 RPAREN)
              (CheckBrackets.unmatched 12 3 RPAREN) eq_refl)
    as (Hl & Hp & _).
  split; [exact Hl | exact Hp].
Defined.

(** *** What a longer text keeps, and how much can be reported *)

Lemma step_keeps_issues (l p : nat) (c : char) (st : CheckBrackets.scan_state) :
  exists more,
    CheckBrackets.bracket_issues (step l p c st)
    = CheckBrackets.bracket_issues st ++ more.
Proof.
  unfold step.
  repeat match goal with
         | |- context [N.eqb c ?k] => destruct (N.eqb c k)
         end;
    try (exists []; now rewrite app_nil_r).
  - destruct (CheckBrackets.round_stack st);
      [eexists; reflexivity | exists []; now rewrite app_nil_r].
  - destruct (CheckBrackets.square_stack st);
      [eexists; reflexivity | exists []; now rewrite app_nil_r].
  - destruct (CheckBrackets.curly_stack st);
      [eexists; reflexivity | exists []; now rewrite app_nil_r].
Qed.

Lemma walk_keeps_issues (text : str) :
  forall l p st,
    exists more,
      CheckBrackets.bracket_issues (walk l p text st)
      = CheckBrackets.bracket_issues st ++ more.
Proof.
  induction text as [|c text IH]; intros l p st; simpl.
  - exists []. now rewrite app_nil_r.
  - destruct (step_keeps_issues l p c st) as [m1 E1].
    destruct (N.eqb c NEWLINE).
    + destruct (IH (S l) 0 (step l p c st)) as [m2 E2].
      exists (m1 ++ m2). now rewrite E2, E1, app_assoc.
    + destruct (IH l (S p) (step l p c st)) as [m2 E2].
      exists (m1 ++ m2). now rewrite E2, E1, app_assoc.
Qed.

Lemma walk_app (a b : str) :
  forall l p st,
    exists l' p', walk l p (a ++ b) st = walk l' p' b (walk l p a st).
Proof.
  induction a as [|c a IH]; intros l p st; simpl.
  - now exists l, p.
  - destruct (N.eqb c NEWLINE); apply IH.
Qed.

(** X6.  The diagnostics that the positional scan of check_brackets.py
    raises during its pass over a text stay, in place and in order, at
    the head of those it raises over any longer text that starts with
    it: more text never takes back an unmatched closer. *)
Theorem X6_unmatched_closers_are_kept (a b : str) :
  exists sa sab more,
    CheckBrackets.scan a = Return sa
    /\ CheckBrackets.scan (a ++ b) = Return sab
    /\ CheckBrackets.bracket_issues sab
       = CheckBrackets.bracket_issues sa ++ more.
Proof.
  destruct (walk_app a b 1 0 CheckBrackets.initial) as (l' & p' & E).
  destruct (walk_keeps_issues b l' p' (walk 1 0 a CheckBrackets.initial))
    as [more Em].
  exists (walk 1 0 a CheckBrackets.initial),
         (walk 1 0 (a ++ b) CheckBrackets.initial), more.
  split; [apply scan_walk|]. split; [apply scan_walk|].
  now rewrite E.
Qed.

Lemma step_bounded (seen : str) (l p : nat) (c : char)
    (st : CheckBrackets.scan_state) :
  List.length (CheckBrackets.report st)
  <= count LPAREN seen + count RPAREN seen + count LBRACKET seen
     + count RBRACKET seen + count LBRACE seen + count RBRACE seen ->
  List.length (CheckBrackets.report (step l p c st))
  <= count LPAREN (seen ++ [c]) + count RPAREN (seen ++ [c])
     + count LBRACKET (seen ++ [c]) + count RBRACKET (seen ++ [c])
     + count LBRACE (seen ++ [c]) + count RBRACE (seen ++ [c]).
Proof.
  unfold CheckBrackets.report, step. rewrite !length_app, !length_map.
  rewrite !count_snoc. intros H.
  destruct (N.eqb_spec c LPAREN) as [->|N1];
    [cbn; rewrite ?length_app; cbn; lia|].
  destruct (N.eqb_spec c RPAREN) as [->|N2].
  { destruct (CheckBrackets.round_stack st) as [|e r] eqn:E;
      cbn [CheckBrackets.round_stack CheckBrackets.square_stack
           CheckBrackets.curly_stack CheckBrackets.bracket_issues
           CheckBrackets.add_issue CheckBrackets.set_round];
      rewrite ?E, ?length_app, ?length_removelast_cons; cbn in *; lia. }
  destruct (N.eqb_spec c LBRACKET) as [->|N3];
    [cbn; rewrite ?length_app; cbn; lia|].
  destruct (N.eqb_spec c RBRACKET) as [->|N4].
  { destruct (CheckBrackets.square_stack st) as [|e r] eqn:E;
      cbn [CheckBrackets.round_stack CheckBrackets.square_stack
           CheckBrackets.curly_stack CheckBrackets.bracket_issues
           CheckBrackets.add_issue CheckBrackets.set_square];
      rewrite ?E, ?length_app, ?length_removelast_cons; cbn in *; lia. }
  destruct (N.eqb_spec c LBRACE) as [->|N5];
    [cbn; rewrite ?length_app; cbn; lia|].
  destruct (N.eqb_spec c RBRACE) as [->|N6].
  { destruct (CheckBrackets.curly_stack st) as [|e r] eqn:E;
      cbn [CheckBrackets.round_stack CheckBrackets.square_stack
           CheckBrackets.curly_stack CheckBrackets.bracket_issues
           CheckBrackets.add_issue CheckBrackets.set_curly];
      rewrite ?E, ?length_app, ?length_removelast_cons; cbn in *; lia. }
  lia.
Qed.

Lemma walk_bounded (text : str) :
  forall seen l p st,
    List.length (CheckBrackets.report st)
    <= count LPAREN seen + count RPAREN seen + count LBRACKET seen
       + count RBRACKET seen + count LBRACE seen + count RBRACE seen ->
    List.length (CheckBrackets.report (walk l p text st))
    <= count LPAREN (seen ++ text) + count RPAREN (seen ++ text)
       + count LBRACKET (seen ++ text) + count RBRACKET (seen ++ text)
       + count LBRACE (seen ++ text) + count RBRACE (seen ++ text).
Proof.
  induction text as [|c text IH]; intros seen l p st H; simpl.
  - now rewrite app_nil_r.
  - replace (seen ++ c :: text) with ((seen ++ [c]) ++ text)
      by (rewrite <- app_assoc; reflexivity).
    destruct (N.eqb c NEWLINE); apply IH, step_bounded, H.
Qed.

Lemma before_irrefl (a : CheckBrackets.position) : ~ before a a.
Proof. unfold before. lia. Qed.

Lemma in_document_order_NoDup (l : list CheckBrackets.position_issue) :
  in_document_order l -> NoDup l.
Proof.
  unfold in_document_order.
  induction 1 as [|a l _ IH Ha]; constructor; [|exact IH].
  intros Hin. rewrite Forall_forall in Ha.
  exact (before_irrefl (Ha a Hin)).
Qed.

Lemma report_NoDup (content : str) :
  NoDup (CheckBrackets.report (walk 1 0 content CheckBrackets.initial)).
Proof.
  destruct (scan_ordered content)
    as (cur & (Or & _) & (Os & _) & (Oc & _) & (Oi & _)).
  destruct (scan_located content) as (_ & _ & _ & Li).
  unfold CheckBrackets.report.
  assert (U : forall c s x, In x (map (CheckBrackets.unclosed c) s) ->
              CheckBrackets.issue_kind_of x = CheckBrackets.Unclosed_opening
              /\ CheckBrackets.issue_char x = c).
  { intros c s x Hx. apply in_map_iff in Hx. destruct Hx as (e & <- & _).
    split; reflexivity. }
  repeat apply NoDup_app.
  - apply in_document_order_NoDup. now apply StronglySorted_map.
  - now apply in_document_order_NoDup, unclosed_in_order.
  - now apply in_document_order_NoDup, unclosed_in_order.
  - now apply in_document_order_NoDup, unclosed_in_order.
  - intros x H1 H2. apply U in H1, H2. destruct H1 as [_ H1], H2 as [_ H2].
    rewrite H1 in H2. discriminate.
  - intros x H1 H2. apply in_app_or in H2.
    apply U in H1. destruct H1 as [_ H1].
    destruct H2 as [H2|H2]; apply U in H2; destruct H2 as [_ H2];
      rewrite H1 in H2; discriminate.
  - intros x H1 H2. rewrite Forall_forall in Li.
    destruct (Li x H1) as (K & _).
    repeat (apply in_app_or in H2; destruct H2 as [H2|H2]);
      apply U in H2; destruct H2 as [H2 _]; rewrite K in H2; discriminate.
Qed.

Lemma NoDup_map_injective (A B : Type) (f : A -> B) (l : list A) :
  (forall x y, f x = f y -> x = y) -> NoDup l -> NoDup (map f l).
Proof.
  intros Hf. induction 1 as [|a l Ha _ IH]; simpl; constructor; [|exact IH].
  intros Hin. apply in_map_iff in Hin. destruct Hin as (b & E & Hb).
  apply Hf in E. subst b. contradiction.
Qed.

(** X8.  The positional scan of check_brackets.py never returns the
    same message twice for a text, and returns at most as many messages
    as the text holds brackets: every bracket character accounts for at
    most one diagnostic. *)
Theorem X8_one_diagnostic_per_bracket (content : str) :
  NoDup (CheckBrackets.find_bracket_position_issues (Return content))
  /\ List.length (CheckBrackets.find_bracket_position_issues (Return content))
     <= count LPAREN content + count RPAREN content
        + count LBRACKET content + count RBRACKET content
        + count LBRACE content + count RBRACE content.
Proof.
  rewrite find_issues_walk. split.
  - apply NoDup_map_injective; [apply format_issue_inj | apply report_NoDup].
  - rewrite length_map.
    apply (@walk_bounded content [] 1 0 CheckBrackets.initial).
    simpl. lia.
Qed.

End MoreOnScan.

(** ** Further properties: the loops over the files *)

Section MoreOnLoops.
Import Py Spec Walk Derived More.
Import CheckBrackets (dict_set, str_eqb).








Lemma sort_file_cases (fs : filesystem) (acc : FinalBracketCheck.sorting)
    (fp : path) :
  let x := FinalBracketCheck.check_file_detailed fp (fs fp) in
  (FinalBracketCheck.critical_issues x <> []
   /\ FinalBracketCheck.sort_file fs acc fp
      = {| FinalBracketCheck.critical_files :=
             FinalBracketCheck.critical_files acc ++ [x];
           FinalBracketCheck.info_files := FinalBracketCheck.info_files acc;
           FinalBracketCheck.clean_files := FinalBracketCheck.clean_files acc |})
  \/ (FinalBracketCheck.critical_issues x = []
      /\ FinalBracketCheck.info_patterns x <> []
      /\ FinalBracketCheck.sort_file fs acc fp
         = {| FinalBracketCheck.critical_files :=
                FinalBracketCheck.critical_files acc;
              FinalBracketCheck.info_files :=
                FinalBracketCheck.info_files acc ++ [x];
              FinalBracketCheck.clean_files :=
                FinalBracketCheck.clean_files acc |})
  \/ (FinalBracketCheck.critical_issues x = []
      /\ FinalBracketCheck.info_patterns x = []
      /\ FinalBracketCheck.sort_file fs acc fp
         = {| FinalBracketCheck.critical_files :=
                FinalBracketCheck.critical_files acc;
              FinalBracketCheck.info_files := FinalBracketCheck.info_files acc;
              FinalBracketCheck.clean_files :=
                FinalBracketCheck.clean_files acc ++ [x] |}).
Proof.
  cbv zeta. unfold FinalBracketCheck.sort_file.
  destruct (FinalBracketCheck.critical_issues
              (FinalBracketCheck.check_file_detailed fp (fs fp))) eqn:Ec.
  - destruct (FinalBracketCheck.info_patterns
                (FinalBracketCheck.check_file_detailed fp (fs fp))) eqn:Ei.
    + right; right. auto.
    + right; left. repeat split; try reflexivity; discriminate.
  - left. split; [discriminate | reflexivity].
Qed.

Lemma final_sort_fold (fs : filesystem) (files : list path) :
  forall acc,
    let r := fold_left (FinalBracketCheck.sort_file fs) files acc in
    Permutation
      (FinalBracketCheck.critical_files r ++ FinalBracketCheck.info_files r
       ++ FinalBracketCheck.clean_files r)
      ((FinalBracketCheck.critical_files acc ++ FinalBracketCheck.info_files acc
        ++ FinalBracketCheck.clean_files acc)
       ++ map (fun fp => FinalBracketCheck.check_file_detailed fp (fs fp)) files)
    /\ (Forall (fun x => FinalBracketCheck.critical_issues x <> [])
               (FinalBracketCheck.critical_files acc) ->
        Forall (fun x => FinalBracketCheck.critical_issues x <> [])
               (FinalBracketCheck.critical_files r))
    /\ (Forall (fun x => FinalBracketCheck.critical_issues x = []
                         /\ FinalBracketCheck.info_patterns x <> [])
               (FinalBracketCheck.info_files acc) ->
        Forall (fun x => FinalBracketCheck.critical_issues x = []
                         /\ FinalBracketCheck.info_patterns x <> [])
               (FinalBracketCheck.info_files r))
    /\ (Forall (fun x => FinalBracketCheck.critical_issues x = []
                         /\ FinalBracketCheck.info_patterns x = [])
               (FinalBracketCheck.clean_files acc) ->
        Forall (fun x => FinalBracketCheck.critical_issues x = []
                         /\ FinalBracketCheck.info_patterns x = [])
               (FinalBracketCheck.clean_files r)).
Proof.
  induction files as [|fp files IH]; intros acc; cbn [fold_left map].
  - cbv zeta. rewrite app_nil_r. auto.
  - destruct (IH (FinalBracketCheck.sort_file fs acc fp)) as (P & F1 & F2 & F3).
    cbv zeta in *. clear IH.
    destruct (sort_file_cases fs acc fp) as [(Hc & E)|[(Hc & Hi & E)|(Hc & Hi & E)]];
      rewrite E in P, F1, F2, F3 |- *;
      cbn [FinalBracketCheck.critical_files FinalBracketCheck.info_files
           FinalBracketCheck.clean_files] in P, F1, F2, F3.
    + split; [|split; [|split; [exact F2|exact F3]]].
      * etransitivity; [exact P|].
        rewrite <- !app_assoc. apply Permutation_app_head.
        cbn [app]. rewrite !app_assoc. apply Permutation_middle.
      * intros H. apply F1, Forall_app. split; [exact H|].
        constructor; [exact Hc | constructor].
    + split; [|split; [exact F1|split; [|exact F3]]].
      * etransitivity; [exact P|].
        rewrite <- !app_assoc. do 2 apply Permutation_app_head.
        cbn [app]. apply Permutation_middle.
      * intros H. apply F2, Forall_app. split; [exact H|].
        constructor; [now split | constructor].
    + split; [|split; [exact F1|split; [exact F2|]]].
      * etransitivity; [exact P|].
        rewrite <- !app_assoc. do 3 apply Permutation_app_head.
        reflexivity.
      * intros H. apply F3, Forall_app. split; [exact H|].
        constructor; [now split | constructor].
Qed.

(** X11.  [main] of final_bracket_check.py sorts every result into
    exactly one of its three lists: together the lists hold the results
    of the files, each once; a result is critical when it has a critical
    issue, informational when it has none but has a pattern, and clean
    when it has neither. *)
Theorem X11_final_main_sorts_every_file (fs : filesystem) (files : list path) :
  Permutation
    (FinalBracketCheck.critical_files (FinalBracketCheck.sort_files fs files)
     ++ FinalBracketCheck.info_files (FinalBracketCheck.sort_files fs files)
     ++ FinalBracketCheck.clean_files (FinalBracketCheck.sort_files fs files))
    (map (fun fp => FinalBracketCheck.check_file_detailed fp (fs fp)) files)
  /\ Forall (fun x => FinalBracketCheck.critical_issues x <> [])
            (FinalBracketCheck.critical_files
               (FinalBracketCheck.sort_files fs files))
  /\ Forall (fun x => FinalBracketCheck.critical_issues x = []
                      /\ FinalBracketCheck.info_patterns x <> [])
            (FinalBracketCheck.info_files
               (FinalBracketCheck.sort_files fs files))
  /\ Forall (fun x => FinalBracketCheck.critical_issues x = []
                      /\ FinalBracketCheck.info_patterns x = [])
            (FinalBracketCheck.clean_files
               (FinalBracketCheck.sort_files fs files)).
Proof.
  unfold FinalBracketCheck.sort_files.
  destruct (final_sort_fold fs files
              {| FinalBracketCheck.critical_files := [];
                 FinalBracketCheck.info_files := [];
                 FinalBracketCheck.clean_files := [] |}) as (P & F1 & F2 & F3).
  cbv zeta in *. repeat split; auto.
Qed.

Lemma nonempty_by_length (A B : Type) (l : list A) (m : list B) :
  List.length l = List.length m ->
  CheckBrackets.nonempty l = CheckBrackets.nonempty m.
Proof. destruct l, m; simpl; congruence. Qed.

Lemma bracket_check_flag (fs : filesystem) (fp : path) :
  CheckBrackets.nonempty
    (BracketCheck.issues (BracketCheck.check_file_brackets fp (fs fp)))
  = count_flagged fs fp.
Proof.
  unfold count_flagged. symmetry. apply nonempty_by_length.
  apply (count_lengths_agree fp (fs fp)).
Qed.

Lemma final_check_flag (fs : filesystem) (fp : path) :
  is_critical fs fp = count_flagged fs fp.
Proof.
  unfold is_critical, count_flagged. symmetry. apply nonempty_by_length.
  apply (count_lengths_agree fp (fs fp)).
Qed.

Lemma bracket_check_fold (fs : filesystem) (files : list path) :
  forall acc,
    map BracketCheck.file
      (BracketCheck.problem_files (fold_left (BracketCheck.sort_file fs) files acc))
    = map BracketCheck.file (BracketCheck.problem_files acc)
      ++ filter (count_flagged fs) files
    /\ map BracketCheck.file
         (BracketCheck.ok_files (fold_left (BracketCheck.sort_file fs) files acc))
       = map BracketCheck.file (BracketCheck.ok_files acc)
         ++ filter (fun fp => negb (count_flagged fs fp)) files.
Proof.
  assert (F : forall fp f,
             BracketCheck.file (BracketCheck.check_file_brackets fp f) = fp)
    by (intros fp [c|e]; reflexivity).
  induction files as [|fp files IH]; intros acc; cbn [fold_left filter].
  - now rewrite !app_nil_r.
  - destruct (IH (BracketCheck.sort_file fs acc fp)) as [E1 E2].
    rewrite E1, E2. unfold BracketCheck.sort_file.
    rewrite bracket_check_flag.
    destruct (count_flagged fs fp);
      cbn [BracketCheck.problem_files BracketCheck.ok_files negb];
      rewrite ?map_app; cbn [map]; rewrite ?F, <- ?app_assoc; auto.
Qed.

(** X12.  Run on the same files, bracket_check.py and
    final_bracket_check.py flag the same files in the same order: the
    problem files of the one and the critical files of the other are
    the files for which [count_brackets] of check_brackets.py returns a
    message, and the OK files of bracket_check.py are the others. *)
Theorem X12_count_scripts_flag_the_same_files (fs : filesystem)
    (files : list path) :
  map BracketCheck.file
    (BracketCheck.problem_files (BracketCheck.main fs files))
  = filter (count_flagged fs) files
  /\ map FinalBracketCheck.filepath
       (FinalBracketCheck.critical_files (FinalBracketCheck.sort_files fs files))
     = filter (count_flagged fs) files
  /\ map BracketCheck.file (BracketCheck.ok_files (BracketCheck.main fs files))
     = filter (fun fp => negb (count_flagged fs fp)) files.
Proof.
  unfold BracketCheck.main, FinalBracketCheck.sort_files.
  destruct (bracket_check_fold fs files
              {| BracketCheck.problem_files := [];
                 BracketCheck.ok_files := [] |}) as [E1 E2].
  split; [exact E1|]. split; [|exact E2].
  rewrite critical_files_fold. cbn [FinalBracketCheck.critical_files app].
  rewrite map_map.
  rewrite (filter_ext _ _ (final_check_flag fs)).
  assert (Id : forall l : list path,
             map (fun x => FinalBracketCheck.filepath
                             (FinalBracketCheck.check_file_detailed x (fs x))) l
             = l).
  { induction l as [|fp l IH]; [reflexivity|].
    cbn [map]. rewrite IH. f_equal. destruct (fs fp); reflexivity. }
  apply Id.
Qed.

End MoreOnLoops.

(** ** Further properties: lines and line numbers *)

Section MoreOnLines.
Import Py Spec Walk Derived More.

Lemma split_lines_nonempty (s : str) : split_lines s <> [].
Proof.
  destruct s as [|c s]; simpl; [discriminate|].
  destruct (N.eqb c NEWLINE); [discriminate|].
  destruct (split_lines s); discriminate.
Qed.

Lemma readlines_nil (s : str) : readlines s = [] -> s = [].
Proof.
  destruct s as [|c s]; simpl; [reflexivity|].
  destruct (N.eqb c NEWLINE); [discriminate|].
  destruct (readlines s); discriminate.
Qed.

Lemma readlines_lines_nonempty (s : str) : Forall (fun l => l <> []) (readlines s).
Proof.
  induction s as [|c s IH]; simpl; [constructor|].
  destruct (N.eqb c NEWLINE).
  - constructor; [discriminate | exact IH].
  - destruct (readlines s) as [|l ls].
    + repeat constructor. discriminate.
    + inversion IH; subst. constructor; [discriminate | assumption].
Qed.

Lemma chomp_cons (c : char) (l : str) : l <> [] -> chomp (c :: l) = c :: chomp l.
Proof.
  intros Hl. unfold chomp. simpl rev.
  destruct (rev l) as [|x r] eqn:E.
  - apply (f_equal (@rev char)) in E. rewrite rev_involutive in E.
    simpl in E. contradiction.
  - simpl. destruct (N.eqb x NEWLINE); [|reflexivity].
    rewrite rev_app_distr. reflexivity.
Qed.

Lemma split_lines_length (s : str) :
  List.length (split_lines s) = S (count NEWLINE s).
Proof.
  induction s as [|c s IH]; simpl; [reflexivity|].
  destruct (N.eqb c NEWLINE); simpl.
  - now rewrite IH.
  - destruct (split_lines s) as [|l ls] eqn:E; simpl in *; [discriminate|].
    exact IH.
Qed.

Lemma join_lines_cons (x y : str) (rest : list str) :
  join_lines (x :: y :: rest) = x ++ NEWLINE :: join_lines (y :: rest).
Proof. reflexivity. Qed.

Lemma join_split_lines (s : str) : join_lines (split_lines s) = s.
Proof.
  induction s as [|c s IH]; simpl; [reflexivity|].
  pose proof (split_lines_nonempty s) as Hn.
  destruct (N.eqb_spec c NEWLINE) as [->|Hc].
  - destruct (split_lines s) as [|l ls]; [contradiction|].
    rewrite join_lines_cons, IH. reflexivity.
  - destruct (split_lines s) as [|l ls]; [contradiction|].
    destruct ls as [|l' ls'].
    + cbn [join_lines] in *. now rewrite IH.
    + rewrite join_lines_cons in *. rewrite <- IH. reflexivity.
Qed.

Lemma split_matches_readlines (s : str) :
  forall k line,
    nth_error (readlines s) k = Some line ->
    nth_error (split_lines s) k = Some (chomp line).
Proof.
  induction s as [|c s IH]; intros k line H; simpl in *.
  - destruct k; discriminate.
  - destruct (N.eqb c NEWLINE) eqn:Hc.
    + destruct k as [|k]; simpl in *.
      * injection H as <-. unfold chomp. simpl. now rewrite Hc.
      * now apply IH.
    + pose proof (readlines_lines_nonempty s) as Hne.
      pose proof (split_lines_nonempty s) as Hs.
      destruct (readlines s) as [|l ls] eqn:Er.
      * apply readlines_nil in Er. subst s. simpl.
        destruct k as [|[|k]]; simpl in *; try discriminate.
        injection H as <-. unfold chomp. simpl. now rewrite Hc.
      * destruct (split_lines s) as [|l' ls'] eqn:Es; [contradiction|].
        inversion Hne; subst.
        destruct k as [|k]; simpl in *.
        -- injection H as <-.
           specialize (IH 0 l eq_refl). simpl in IH. injection IH as ->.
           now rewrite chomp_cons.
        -- exact (IH (S k) line H).
Qed.

(** X15.  The scripts that number lines through [readlines] and those
    that number them through [split('\n')] mean the same lines: line
    [k] of the one is line [k] of the other without its newline.  The
    pieces of [split('\n')] are one more than the newlines of the text,
    and joined by newlines they give the text back. *)
Theorem X15_line_numbers_agree (s : str) :
  (forall k line,
     nth_error (readlines s) k = Some line ->
     nth_error (split_lines s) k = Some (chomp line))
  /\ List.length (split_lines s) = S (count NEWLINE s)
  /\ join_lines (split_lines s) = s
  /\ List.concat (readlines s) = s.
Proof.
  split; [apply split_matches_readlines|].
  split; [apply split_lines_length|].
  split; [apply join_split_lines | apply concat_readlines].
Qed.

(** *** Which line a pattern message names *)

Section PatternLines.
Variable lp : nat -> str -> list str.
Variable pf : nat -> list str -> list str.
Hypothesis pf_nil : forall k, pf k [] = [].
Hypothesis pf_cons : forall k l ls, pf k (l :: ls) = lp k l ++ pf (S k) ls.
Hypothesis lp_shape :
  forall k l m, In m (lp k l) ->
                exists suf, m = lit "Line " ++ dec k ++ 58%N :: suf.

Lemma patterns_located (lines : list str) :
  forall k n suf,
    In (lit "Line " ++ dec n ++ 58%N :: suf) (pf k lines) <->
    exists j line,
      n = k + j /\ nth_error lines j = Some line
      /\ In (lit "Line " ++ dec n ++ 58%N :: suf) (lp n line).
Proof.
  induction lines as [|l ls IH]; intros k n suf.
  - rewrite pf_nil. split; [intros []|].
    intros (j & line & _ & H & _). destruct j; discriminate.
  - rewrite pf_cons, in_app_iff, IH. split.
    + intros [H|(j & line & E & Hn & H)].
      * destruct (lp_shape _ _ _ H) as [suf' E].
        apply app_inv_head in E.
        apply split_at_separator in E;
          try (apply dec_without; unfold is_digit; lia).
        destruct E as [E _]. apply dec_inj in E. subst n.
        exists 0, l. repeat split; trivial; lia.
      * exists (S j), line. repeat split; trivial; lia.
    + intros (j & line & E & Hn & H). destruct j as [|j]; simpl in Hn.
      * injection Hn as ->. left. replace k with n by lia. exact H.
      * right. exists j, line. repeat split; trivial; lia.
Qed.

End PatternLines.

Lemma final_line_shape (k : nat) (l m : str) :
  In m (FinalBracketCheck.line_patterns k l) ->
  exists suf, m = lit "Line " ++ dec k ++ 58%N :: suf.
Proof.
  unfold FinalBracketCheck.line_patterns. intros H.
  repeat (apply in_app_or in H; destruct H as [H|H]);
    match type of H with
    | In _ (if ?b then _ else _) => destruct b
    end; simpl in H; try contradiction;
    destruct H as [<-|[]]; eexists; reflexivity.
Qed.

Lemma common_line_shape (k : nat) (l m : str) :
  In m (CommonPatterns.line_patterns k l) ->
  exists suf, m = lit "Line " ++ dec k ++ 58%N :: suf.
Proof.
  unfold CommonPatterns.line_patterns. intros H.
  repeat (apply in_app_or in H; destruct H as [H|H]);
    repeat match type of H with
           | In _ (if ?b then _ else _) => destruct b
           end; simpl in H; try contradiction;
    destruct H as [<-|[]]; eexists; reflexivity.
Qed.

Lemma final_pattern_line (content : str) (n : nat) (suf : str) :
  In (lit "Line " ++ dec n ++ 58%N :: suf)
     (FinalBracketCheck.patterns_from 1 (split_lines content)) <->
  exists line,
    1 <= n /\ nth_error (split_lines content) (n - 1) = Some line
    /\ In (lit "Line " ++ dec n ++ 58%N :: suf)
          (FinalBracketCheck.line_patterns n line).
Proof.
  rewrite (@patterns_located FinalBracketCheck.line_patterns
             FinalBracketCheck.patterns_from);
    try reflexivity; [|apply final_line_shape].
  split.
  - intros (j & line & -> & Hn & H). exists line.
    replace (1 + j - 1) with j by lia. repeat split; trivial. lia.
  - intros (line & Hn & Hl & H). exists (n - 1), line.
    repeat split; trivial. lia.
Qed.

Lemma common_pattern_line (content : str) (n : nat) (suf : str) :
  In (lit "Line " ++ dec n ++ 58%N :: suf)
     (CommonPatterns.patterns_from 1 (split_lines content)) <->
  exists line,
    1 <= n /\ nth_error (split_lines content) (n - 1) = Some line
    /\ In (lit "Line " ++ dec n ++ 58%N :: suf)
          (CommonPatterns.line_patterns n line).
Proof.
  rewrite (@patterns_located CommonPatterns.line_patterns
             CommonPatterns.patterns_from);
    try reflexivity; [|apply common_line_shape].
  split.
  - intros (j & line & -> & Hn & H). exists line.
    replace (1 + j - 1) with j by lia. repeat split; trivial. lia.
  - intros (line & Hn & Hl & H). exists (n - 1), line.
    repeat split; trivial. lia.
Qed.

(** *** The quote heuristic of final_bracket_check.py *)

Lemma count2_skip (a b x : char) (s : str) :
  N.eqb x a = false -> count2 a b (x :: s) = count2 a b s.
Proof.
  intros H. destruct s as [|y s]; [reflexivity|].
  cbn [count2]. rewrite H. reflexivity.
Qed.

Lemma count_split_escaped (a b : char) (s : str) :
  N.eqb a b = false ->
  forall prev : bool,
    count b s
    = count2 a b (if prev then a :: s else s) + unescaped a b prev s.
Proof.
  intros Hab. induction s as [|x s IH]; intros prev.
  - destruct prev; reflexivity.
  - cbn [count unescaped]. rewrite (IH (N.eqb x a)).
    destruct prev.
    + change (count2 a b (a :: x :: s))
        with (if N.eqb a a && N.eqb x b then S (count2 a b s)
              else count2 a b (x :: s)).
      rewrite N.eqb_refl. cbn [andb negb].
      destruct (N.eqb x b) eqn:Hxb.
      * assert (Hxa : N.eqb x a = false).
        { apply N.eqb_eq in Hxb. subst x.
          rewrite N.eqb_sym. exact Hab. }
        rewrite Hxa. cbn. lia.
      * destruct (N.eqb x a) eqn:Hxa.
        -- apply N.eqb_eq in Hxa. subst x. cbn. lia.
        -- rewrite count2_skip by assumption. cbn. lia.
    + cbn [negb]. rewrite andb_true_r.
      destruct (N.eqb x a) eqn:Hxa.
      * apply N.eqb_eq in Hxa. subst x. rewrite Hab. cbn. lia.
      * rewrite count2_skip by assumption. lia.
Qed.

Lemma zmod2_even (u : nat) : Z.eqb (Z.of_nat u mod 2) 0 = Nat.even u.
Proof.
  destruct (Nat.Even_or_Odd u) as [[m ->]|[m ->]].
  - assert (E : Nat.even (2 * m) = true)
      by (apply Nat.even_spec; now exists m).
    rewrite E, Nat2Z.inj_mul, Z.mul_comm, Z_mod_mult. reflexivity.
  - assert (O : Nat.odd (2 * m + 1) = true)
      by (apply Nat.odd_spec; now exists m).
    unfold Nat.odd in O. apply negb_true_iff in O. rewrite O.
    rewrite Nat2Z.inj_add, Nat2Z.inj_mul, Z.add_comm, Z.mul_comm.
    rewrite Z_mod_plus_full. reflexivity.
Qed.

Lemma quote_parity (a b : char) (line : str) :
  N.eqb a b = false ->
  Z.eqb ((Z.of_nat (count b line) - Z.of_nat (count2 a b line)) mod 2) 0
  = Nat.even (unescaped a b false line).
Proof.
  intros Hab. rewrite (count_split_escaped a b line Hab false).
  rewrite Nat2Z.inj_add.
  replace (Z.of_nat (count2 a b line) + Z.of_nat (unescaped a b false line)
           - Z.of_nat (count2 a b line))%Z
    with (Z.of_nat (unescaped a b false line)) by lia.
  apply zmod2_even.
Qed.

Lemma single_quote_line (n : nat) (line : str) :
  In (lit "Line " ++ dec n ++ lit ": Unmatched single quotes")
     (FinalBracketCheck.line_patterns n line) <->
  Nat.odd (unescaped BACKSLASH QUOTE false line) = true.
Proof.
  unfold FinalBracketCheck.line_patterns.
  rewrite (quote_parity BACKSLASH QUOTE line eq_refl).
  rewrite (quote_parity BACKSLASH DQUOTE line eq_refl).
  unfold Nat.odd. rewrite !in_app_iff. split.
  - intros [H|[H|H]].
    + destruct (FinalBracketCheck.closing_run 4 0 line); [|destruct H].
      destruct H as [H|[]]. do 2 apply app_inv_head in H.
      cbv in H. discriminate.
    + destruct (Nat.even (unescaped BACKSLASH QUOTE false line));
        [destruct H | reflexivity].
    + destruct (Nat.even (unescaped BACKSLASH DQUOTE false line));
        [destruct H|].
      destruct H as [H|[]]. do 2 apply app_inv_head in H.
      cbv in H. discriminate.
  - intros H. apply negb_true_iff in H. rewrite H.
    right; left. now left.
Qed.

Lemma double_quote_line (n : nat) (line : str) :
  In (lit "Line " ++ dec n ++ lit ": Unmatched double quotes")
     (FinalBracketCheck.line_patterns n line) <->
  Nat.odd (unescaped BACKSLASH DQUOTE false line) = true.
Proof.
  unfold FinalBracketCheck.line_patterns.
  rewrite (quote_parity BACKSLASH QUOTE line eq_refl).
  rewrite (quote_parity BACKSLASH DQUOTE line eq_refl).
  unfold Nat.odd. rewrite !in_app_iff. split.
  - intros [H|[H|H]].
    + destruct (FinalBracketCheck.closing_run 4 0 line); [|destruct H].
      destruct H as [H|[]]. do 2 apply app_inv_head in H.
      cbv in H. discriminate.
    + destruct (Nat.even (unescaped BACKSLASH QUOTE false line));
        [destruct H|].
      destruct H as [H|[]]. do 2 apply app_inv_head in H.
      cbv in H. discriminate.
    + destruct (Nat.even (unescaped BACKSLASH DQUOTE false line));
        [destruct H | reflexivity].
  - intros H. apply negb_true_iff in H. rewrite H.
    right; right. now left.
Qed.

(** X13.  final_bracket_check.py reports unmatched single (double)
    quotes for line [n] of a file exactly when that line holds an odd
    number of single (double) quotes that do not directly follow a
    backslash; a quote after a backslash is never counted, whatever
    stands before the backslash. *)
Theorem X13_quote_patterns (fp : path) (content : str) (n : nat) :
  (In (lit "Line " ++ dec n ++ lit ": Unmatched single quotes")
      (FinalBracketCheck.info_patterns
         (FinalBracketCheck.check_file_detailed fp (Return content))) <->
   exists line,
     1 <= n /\ nth_error (split_lines content) (n - 1) = Some line
     /\ Nat.odd (unescaped BACKSLASH QUOTE false line) = true)
  /\ (In (lit "Line " ++ dec n ++ lit ": Unmatched double quotes")
         (FinalBracketCheck.info_patterns
            (FinalBracketCheck.check_file_detailed fp (Return content))) <->
      exists line,
        1 <= n /\ nth_error (split_lines content) (n - 1) = Some line
        /\ Nat.odd (unescaped BACKSLASH DQUOTE false line) = true).
Proof.
  unfold FinalBracketCheck.check_file_detailed, FinalBracketCheck.check_content.
  cbn [bind FinalBracketCheck.info_patterns].
  split.
  - change (lit ": Unmatched single quotes")
      with (58%N :: lit " Unmatched single quotes").
    rewrite final_pattern_line.
    split; intros (line & Hn & Hl & H); exists line; repeat split; trivial;
      now apply (single_quote_line n line).
  - change (lit ": Unmatched double quotes")
      with (58%N :: lit " Unmatched double quotes").
    rewrite final_pattern_line.
    split; intros (line & Hn & Hl & H); exists line; repeat split; trivial;
      now apply (double_quote_line n line).
Qed.

(** *** Runs of brackets *)

Section Runs.
Variable p : char -> bool.
Variable rf : nat -> nat -> str -> bool.
Hypothesis rf_nil : forall k run, rf k run [] = false.
Hypothesis rf_cons :
  forall k run c l,
    rf k run (c :: l)
    = if p c then if Nat.leb k (S run) then true else rf k (S run) l
      else rf k 0 l.

Lemma starts_zero (l : str) : starts_with_run p 0 l.
Proof. exists [], l. auto. Qed.

Lemma starts_nil (m : nat) : starts_with_run p (S m) [] -> False.
Proof.
  intros (mid & suf & E & Hm & _). symmetry in E.
  apply app_eq_nil in E. destruct E as [-> _]. discriminate.
Qed.

Lemma starts_cons (m : nat) (c : char) (l : str) :
  starts_with_run p (S m) (c :: l) <-> p c = true /\ starts_with_run p m l.
Proof.
  split.
  - intros (mid & suf & E & Hm & Hp).
    destruct mid as [|c' mid]; [discriminate|].
    injection E as <- ->. injection Hm as Hm.
    simpl in Hp. apply andb_prop in Hp. destruct Hp as [Hc Hp].
    split; [exact Hc|]. now exists mid, suf.
  - intros (Hc & mid & suf & -> & Hm & Hp).
    exists (c :: mid), suf. simpl. rewrite Hc, Hp, Hm. auto.
Qed.

Lemma starts_mono (m' : nat) :
  forall m l, m' <= m -> starts_with_run p m l -> starts_with_run p m' l.
Proof.
  induction m' as [|m' IH]; intros m l Hle H; [apply starts_zero|].
  destruct m as [|m]; [lia|].
  destruct l as [|c l]; [destruct (starts_nil H)|].
  apply starts_cons in H. destruct H as [Hc H].
  apply starts_cons. split; [exact Hc|].
  apply (IH m); [lia | exact H].
Qed.

Lemma has_run_nil (k : nat) : has_run p (S k) [] -> False.
Proof.
  intros (pre & rest & E & H). symmetry in E.
  apply app_eq_nil in E. destruct E as [_ ->]. exact (starts_nil H).
Qed.

Lemma has_run_cons (k : nat) (c : char) (l : str) :
  has_run p k (c :: l) <-> starts_with_run p k (c :: l) \/ has_run p k l.
Proof.
  split.
  - intros (pre & rest & E & H). destruct pre as [|c' pre].
    + simpl in E. subst rest. now left.
    + injection E as <- ->. right. now exists pre, rest.
  - intros [H|(pre & rest & -> & H)].
    + now exists [], (c :: l).
    + now exists (c :: pre), rest.
Qed.

Lemma run_spec (k : nat) (line : str) :
  1 <= k ->
  forall run, run < k ->
    (rf k run line = true <->
     starts_with_run p (k - run) line \/ has_run p k line).
Proof.
  intros Hk. induction line as [|c l IH]; intros run Hrun.
  - rewrite rf_nil. split; [discriminate|].
    intros [H|H].
    + replace (k - run) with (S (k - run - 1)) in H by lia.
      destruct (starts_nil H).
    + replace k with (S (k - 1)) in H by lia. destruct (has_run_nil H).
  - rewrite rf_cons, has_run_cons.
    replace (k - run) with (S (k - S run)) by lia.
    rewrite starts_cons.
    destruct (p c) eqn:Hc.
    + destruct (Nat.leb_spec k (S run)) as [Hle|Hlt].
      * split; [|reflexivity]. intros _. left. split; [reflexivity|].
        replace (k - S run) with 0 by lia. apply starts_zero.
      * rewrite (IH (S run) Hlt). split.
        -- intros [H|H]; [left; now split | right; now right].
        -- intros [[_ H]|[H|H]]; [now left | | now right].
           left. replace k with (S (k - 1)) in H by lia.
           apply starts_cons in H. destruct H as [_ H].
           apply (@starts_mono (k - S run) (k - 1)); [lia | exact H].
    + assert (Hk0 : 0 < k) by lia. rewrite (IH 0 Hk0). split.
      * intros [H|H]; right; right; [|exact H].
        rewrite Nat.sub_0_r in H. now exists [], l.
      * intros [[H _]|[H|H]]; [discriminate H| |now right].
        replace k with (S (k - 1)) in H by lia.
        apply starts_cons in H. destruct H as [H _].
        rewrite Hc in H. discriminate H.
Qed.

Lemma run_from_start (k : nat) (line : str) :
  1 <= k -> (rf k 0 line = true <-> has_run p k line).
Proof.
  intros Hk. rewrite (run_spec line Hk) by lia. rewrite Nat.sub_0_r.
  split; [|now right]. intros [H|H]; [now exists [], line | exact H].
Qed.

Lemma has_run_shorter (k k' : nat) (line : str) :
  k' <= k -> has_run p k line -> has_run p k' line.
Proof.
  intros Hle (pre & rest & E & H). exists pre, rest.
  split; [exact E|]. now apply (@starts_mono k' k).
Qed.

End Runs.

Lemma closing_run_iff (k : nat) (line : str) :
  1 <= k ->
  (FinalBracketCheck.closing_run k 0 line = true
   <-> has_run FinalBracketCheck.is_closer k line).
Proof.
  apply (@run_from_start FinalBracketCheck.is_closer
           FinalBracketCheck.closing_run); reflexivity.
Qed.

Lemma opening_run_iff (k : nat) (line : str) :
  1 <= k ->
  (CommonPatterns.opening_run k 0 line = true
   <-> has_run CommonPatterns.is_opener k line).
Proof.
  apply (@run_from_start CommonPatterns.is_opener
           CommonPatterns.opening_run); reflexivity.
Qed.

Ltac other_message H :=
  do 2 apply app_inv_head in H; cbv in H; discriminate H.

Lemma many_closing_line (n : nat) (line : str) :
  In (lit "Line " ++ dec n
        ++ lit ": Many consecutive closing brackets (possibly normal in complex structures)")
     (FinalBracketCheck.line_patterns n line) <->
  FinalBracketCheck.closing_run 4 0 line = true.
Proof.
  unfold FinalBracketCheck.line_patterns. rewrite !in_app_iff. split.
  - intros [H|[H|H]].
    + destruct (FinalBracketCheck.closing_run 4 0 line);
        [reflexivity | destruct H].
    + destruct (Z.eqb _ 0); [destruct H|].
      destruct H as [H|[]]. other_message H.
    + destruct (Z.eqb _ 0); [destruct H|].
      destruct H as [H|[]]. other_message H.
  - intros ->. left. now left.
Qed.

Lemma common_messages (n : nat) (line : str) :
  (In (lit "Line " ++ dec n ++ lit ": Multiple consecutive opening brackets")
      (CommonPatterns.line_patterns n line)
   <-> CommonPatterns.opening_run 3 0 line = true)
  /\ (In (lit "Line " ++ dec n ++ lit ": Multiple consecutive closing brackets")
         (CommonPatterns.line_patterns n line)
      <-> FinalBracketCheck.closing_run 3 0 line = true)
  /\ (In (lit "Line " ++ dec n ++ lit ": Complex bracket sequence )[{")
         (CommonPatterns.line_patterns n line)
      <-> CommonPatterns.sequence_search line = true)
  /\ (In (lit "Line " ++ dec n ++ lit ": Possible incomplete template literal")
         (CommonPatterns.line_patterns n line)
      <-> (contains BACKTICK line
           && (contains LBRACE line || contains LBRACKET line
               || contains LPAREN line)
           && Nat.eqb (count BACKTICK line) 1) = true).
Proof.
  unfold CommonPatterns.line_patterns. rewrite !in_app_iff.
  destruct (CommonPatterns.opening_run 3 0 line);
  destruct (FinalBracketCheck.closing_run 3 0 line);
  destruct (CommonPatterns.sequence_search line);
  destruct (contains BACKTICK line
            && (contains LBRACE line || contains LBRACKET line
                || contains LPAREN line));
  destruct (Nat.eqb (count BACKTICK line) 1);
    cbn [andb In];
    repeat split;
    try (intros H; discriminate H);
    try (intros _; tauto);
    try (intros H;
         repeat match type of H with
                | _ \/ _ => destruct H as [H|H]
                | False => destruct H
                end;
         try reflexivity; other_message H).
Qed.

(** X14.  final_bracket_check.py reports many consecutive closing
    brackets for line [n] exactly when that line holds four closing
    brackets in a row; [find_common_patterns] of
    detailed_bracket_check.py reports multiple consecutive closing
    (opening) brackets exactly when it holds three closing (opening)
    brackets in a row.  So every line that the first script reports is
    reported by the second. *)
Theorem X14_bracket_runs (fp : path) (content : str) (n : nat) :
  (In (lit "Line " ++ dec n
         ++ lit ": Many consecutive closing brackets (possibly normal in complex structures)")
      (FinalBracketCheck.info_patterns
         (FinalBracketCheck.check_file_detailed fp (Return content))) <->
   exists line,
     1 <= n /\ nth_error (split_lines content) (n - 1) = Some line
     /\ has_run FinalBracketCheck.is_closer 4 line)
  /\ (In (lit "Line " ++ dec n ++ lit ": Multiple consecutive closing brackets")
         (CommonPatterns.find_common_patterns (Return content)) <->
      exists line,
        1 <= n /\ nth_error (split_lines content) (n - 1) = Some line
        /\ has_run FinalBracketCheck.is_closer 3 line)
  /\ (In (lit "Line " ++ dec n ++ lit ": Multiple consecutive opening brackets")
         (CommonPatterns.find_common_patterns (Return content)) <->
      exists line,
        1 <= n /\ nth_error (split_lines content) (n - 1) = Some line
        /\ has_run CommonPatterns.is_opener 3 line)
  /\ (In (lit "Line " ++ dec n
            ++ lit ": Many consecutive closing brackets (possibly normal in complex structures)")
         (FinalBracketCheck.info_patterns
            (FinalBracketCheck.check_file_detailed fp (Return content))) ->
      In (lit "Line " ++ dec n ++ lit ": Multiple consecutive closing brackets")
         (CommonPatterns.find_common_patterns (Return content))).
Proof.
  unfold FinalBracketCheck.check_file_detailed, FinalBracketCheck.check_content,
    CommonPatterns.find_common_patterns.
  cbn [bind FinalBracketCheck.info_patterns].
  assert (A : In (lit "Line " ++ dec n
         ++ lit ": Many consecutive closing brackets (possibly normal in complex structures)")
      (FinalBracketCheck.patterns_from 1 (split_lines content)) <->
   exists line,
     1 <= n /\ nth_error (split_lines content) (n - 1) = Some line
     /\ has_run FinalBracketCheck.is_closer 4 line).
  { change (lit ": Many consecutive closing brackets (possibly normal in complex structures)")
      with (58%N :: lit " Many consecutive closing brackets (possibly normal in complex structures)").
    rewrite final_pattern_line.
    split; intros (line & Hn & Hl & H); exists line; repeat split; trivial.
    - apply closing_run_iff; [lia|]. now apply (many_closing_line n line).
    - apply (many_closing_line n line). apply closing_run_iff; [lia|exact H]. }
  assert (B : In (lit "Line " ++ dec n ++ lit ": Multiple consecutive closing brackets")
         (CommonPatterns.patterns_from 1 (split_lines content)) <->
      exists line,
        1 <= n /\ nth_error (split_lines content) (n - 1) = Some line
        /\ has_run FinalBracketCheck.is_closer 3 line).
  { change (lit ": Multiple consecutive closing brackets")
      with (58%N :: lit " Multiple consecutive closing brackets").
    rewrite common_pattern_line.
    split; intros (line & Hn & Hl & H); exists line; repeat split; trivial;
      destruct (common_messages n line) as (_ & M & _).
    - apply closing_run_iff; [lia|]. now apply M.
    - apply M. apply closing_run_iff; [lia|exact H]. }
  assert (C : In (lit "Line " ++ dec n ++ lit ": Multiple consecutive opening brackets")
         (CommonPatterns.patterns_from 1 (split_lines content)) <->
      exists line,
        1 <= n /\ nth_error (split_lines content) (n - 1) = Some line
        /\ has_run CommonPatterns.is_opener 3 line).
  { change (lit ": Multiple consecutive opening brackets")
      with (58%N :: lit " Multiple consecutive opening brackets").
    rewrite common_pattern_line.
    split; intros (line & Hn & Hl & H); exists line; repeat split; trivial;
      destruct (common_messages n line) as (M & _).
    - apply opening_run_iff; [lia|]. now apply M.
    - apply M. apply opening_run_iff; [lia|exact H]. }
  split; [exact A|]. split; [exact B|]. split; [exact C|].
  intros H. apply A in H. destruct H as (line & Hn & Hl & H).
  apply B. exists line. repeat split; trivial.
  apply (@has_run_shorter FinalBracketCheck.is_closer 4 3); [lia | exact H].
Qed.

(** *** The bracket sequence and the template literal *)

Lemma lstrip_found (r : str) (c : char) (r' : str) :
  lstrip r = c :: r' ->
  exists ws, r = ws ++ c :: r' /\ forallb isspace ws = true /\ isspace c = false.
Proof.
  induction r as [|x r IH]; simpl; [discriminate|].
  destruct (isspace x) eqn:Hx.
  - intros H. destruct (IH H) as (ws & -> & Hw & Hc).
    exists (x :: ws). simpl. rewrite Hx, Hw. auto.
  - intros H. injection H as -> ->. exists []. auto.
Qed.

Lemma lstrip_skips (ws : str) (c : char) (r' : str) :
  forallb isspace ws = true -> isspace c = false ->
  lstrip (ws ++ c :: r') = c :: r'.
Proof.
  intros Hw Hc. induction ws as [|x ws IH]; simpl in *.
  - now rewrite Hc.
  - apply andb_prop in Hw. destruct Hw as [Hx Hw]. rewrite Hx. now apply IH.
Qed.

Lemma sequence_at_iff (s : str) :
  CommonPatterns.sequence_at s = true <->
  exists ws1 ws2 suf,
    s = RPAREN :: ws1 ++ LBRACKET :: ws2 ++ LBRACE :: suf
    /\ forallb isspace ws1 = true /\ forallb isspace ws2 = true.
Proof.
  unfold CommonPatterns.sequence_at. split.
  - destruct s as [|c r]; [discriminate|].
    intros H. apply andb_prop in H. destruct H as [Hc H].
    apply N.eqb_eq in Hc. subst c.
    destruct (lstrip r) as [|c1 r1] eqn:E1; [discriminate|].
    apply andb_prop in H. destruct H as [Hc1 H].
    apply N.eqb_eq in Hc1. subst c1.
    destruct (lstrip r1) as [|c2 r2] eqn:E2; [discriminate|].
    apply N.eqb_eq in H. subst c2.
    apply lstrip_found in E1, E2.
    destruct E1 as (ws1 & -> & W1 & _), E2 as (ws2 & -> & W2 & _).
    now exists ws1, ws2, r2.
  - intros (ws1 & ws2 & suf & -> & W1 & W2).
    rewrite N.eqb_refl, (@lstrip_skips ws1 LBRACKET _ W1 eq_refl).
    rewrite N.eqb_refl, (@lstrip_skips ws2 LBRACE _ W2 eq_refl).
    now rewrite N.eqb_refl.
Qed.

Lemma sequence_search_iff (line : str) :
  CommonPatterns.sequence_search line = true <->
  exists pre ws1 ws2 suf,
    line = pre ++ RPAREN :: ws1 ++ LBRACKET :: ws2 ++ LBRACE :: suf
    /\ forallb isspace ws1 = true /\ forallb isspace ws2 = true.
Proof.
  induction line as [|c l IH].
  - simpl. split; [discriminate|].
    intros (pre & ws1 & ws2 & suf & E & _). destruct pre; discriminate.
  - cbn [CommonPatterns.sequence_search]. rewrite orb_true_iff, IH, sequence_at_iff.
    split.
    + intros [(ws1 & ws2 & suf & E & W)|(pre & ws1 & ws2 & suf & -> & W)].
      * now exists [], ws1, ws2, suf.
      * now exists (c :: pre), ws1, ws2, suf.
    + intros (pre & ws1 & ws2 & suf & E & W). destruct pre as [|c' pre].
      * left. now exists ws1, ws2, suf.
      * injection E as <- ->. right. now exists pre, ws1, ws2, suf.
Qed.

Lemma count_contains (c : char) (s : str) :
  contains c s = true <-> 1 <= count c s.
Proof.
  unfold contains. induction s as [|x s IH]; simpl.
  - split; [discriminate | lia].
  - rewrite orb_true_iff, IH, N.eqb_sym.
    destruct (N.eqb x c); split; intros; auto; try lia.
Qed.

(** X16.  [find_common_patterns] reports a complex bracket sequence for
    line [n] exactly when the line holds a closing round bracket, an
    opening square bracket and an opening curly bracket in this order
    with nothing but white space between them; it reports a possibly
    incomplete template literal exactly when the line holds one
    backtick and at least one opening bracket. *)
Theorem X16_sequence_and_template (content : str) (n : nat) :
  (In (lit "Line " ++ dec n ++ lit ": Complex bracket sequence )[{")
      (CommonPatterns.find_common_patterns (Return content)) <->
   exists line pre ws1 ws2 suf,
     1 <= n /\ nth_error (split_lines content) (n - 1) = Some line
     /\ line = pre ++ RPAREN :: ws1 ++ LBRACKET :: ws2 ++ LBRACE :: suf
     /\ forallb isspace ws1 = true /\ forallb isspace ws2 = true)
  /\ (In (lit "Line " ++ dec n ++ lit ": Possible incomplete template literal")
         (CommonPatterns.find_common_patterns (Return content)) <->
      exists line,
        1 <= n /\ nth_error (split_lines content) (n - 1) = Some line
        /\ count BACKTICK line = 1
        /\ 1 <= count LBRACE line + count LBRACKET line + count LPAREN line).
Proof.
  unfold CommonPatterns.find_common_patterns. cbn [bind].
  split.
  - change (lit ": Complex bracket sequence )[{")
      with (58%N :: lit " Complex bracket sequence )[{").
    rewrite common_pattern_line. split.
    + intros (line & Hn & Hl & H).
      destruct (common_messages n line) as (_ & _ & M & _).
      apply M, sequence_search_iff in H.
      destruct H as (pre & ws1 & ws2 & suf & E & W1 & W2).
      exists line, pre, ws1, ws2, suf. auto.
    + intros (line & pre & ws1 & ws2 & suf & Hn & Hl & E & W1 & W2).
      exists line. repeat split; trivial.
      destruct (common_messages n line) as (_ & _ & M & _).
      apply M, sequence_search_iff. now exists pre, ws1, ws2, suf.
  - change (lit ": Possible incomplete template literal")
      with (58%N :: lit " Possible incomplete template literal").
    rewrite common_pattern_line.
    split; intros (line & Hn & Hl & H); exists line;
      destruct (common_messages n line) as (_ & _ & _ & M).
    + apply M in H. apply andb_prop in H. destruct H as [H H1].
      apply andb_prop in H. destruct H as [_ H].
      apply Nat.eqb_eq in H1. rewrite !orb_true_iff, !count_contains in H.
      repeat split; trivial. lia.
    + destruct H as [H1 H]. repeat split; trivial. apply M.
      rewrite !andb_true_iff, !orb_true_iff, !count_contains, Nat.eqb_eq.
      lia.
Qed.

(** *** Files without brackets *)

Lemma plain_cons (c : char) (s : str) :
  plain (c :: s) = true ->
  FinalBracketCheck.is_closer c = false /\ CommonPatterns.is_opener c = false
  /\ N.eqb c RPAREN = false /\ N.eqb c BACKTICK = false /\ plain s = true.
Proof.
  cbn [plain forallb]. intros H. apply andb_prop in H. destruct H as [Hc Hs].
  unfold FinalBracketCheck.is_closer, CommonPatterns.is_opener.
  destruct (N.eqb c LPAREN); [discriminate|].
  destruct (N.eqb c RPAREN); [discriminate|].
  destruct (N.eqb c LBRACKET); [discriminate|].
  destruct (N.eqb c RBRACKET); [discriminate|].
  destruct (N.eqb c LBRACE); [discriminate|].
  destruct (N.eqb c RBRACE); [discriminate|].
  destruct (N.eqb c BACKTICK); [discriminate|].
  auto.
Qed.

Lemma plain_line_patterns (n : nat) (line : str) :
  plain line = true -> CommonPatterns.line_patterns n line = [].
Proof.
  intros H.
  assert (O : forall run, CommonPatterns.opening_run 3 run line = false).
  { induction line as [|c l IH]; intros run; [reflexivity|].
    destruct (plain_cons _ _ H) as (_ & Ho & _ & _ & Hl).
    cbn [CommonPatterns.opening_run]. rewrite Ho. exact (IH Hl 0). }
  assert (C : forall run, FinalBracketCheck.closing_run 3 run line = false).
  { clear - H. induction line as [|c l IH]; intros run; [reflexivity|].
    destruct (plain_cons _ _ H) as (Hc & _ & _ & _ & Hl).
    cbn [FinalBracketCheck.closing_run]. rewrite Hc. exact (IH Hl 0). }
  assert (S' : CommonPatterns.sequence_search line = false).
  { clear - H. induction line as [|c l IH]; [reflexivity|].
    destruct (plain_cons _ _ H) as (_ & _ & Hr & _ & Hl).
    cbn [CommonPatterns.sequence_search CommonPatterns.sequence_at].
    rewrite Hr. exact (IH Hl). }
  assert (B : contains BACKTICK line = false).
  { clear - H. unfold contains. induction line as [|c l IH]; [reflexivity|].
    destruct (plain_cons _ _ H) as (_ & _ & _ & Hb & Hl).
    cbn [existsb]. rewrite N.eqb_sym, Hb. exact (IH Hl). }
  unfold CommonPatterns.line_patterns. now rewrite O, C, S', B.
Qed.

Lemma split_lines_plain (s : str) :
  plain s = true -> Forall (fun l => plain l = true) (split_lines s).
Proof.
  induction s as [|c s IH]; intros H; simpl.
  - repeat constructor.
  - destruct (plain_cons _ _ H) as (_ & _ & _ & _ & Hs).
    specialize (IH Hs).
    destruct (N.eqb c NEWLINE).
    + constructor; [reflexivity | exact IH].
    + assert (Hc : negb (N.eqb c LPAREN || N.eqb c RPAREN
                           || N.eqb c LBRACKET || N.eqb c RBRACKET
                           || N.eqb c LBRACE || N.eqb c RBRACE
                           || N.eqb c BACKTICK) = true).
      { cbn [plain forallb] in H. apply andb_prop in H. tauto. }
      destruct (split_lines s) as [|l ls].
      * repeat constructor. cbn [plain forallb]. now rewrite Hc.
      * inversion IH; subst. constructor; [|assumption].
        cbn [plain forallb]. rewrite Hc. assumption.
Qed.

Lemma plain_patterns_from (lines : list str) :
  Forall (fun l => plain l = true) lines ->
  forall k, CommonPatterns.patterns_from k lines = [].
Proof.
  induction 1 as [|l ls Hl _ IH]; intros k; [reflexivity|].
  cbn [CommonPatterns.patterns_from]. now rewrite plain_line_patterns, IH.
Qed.

(** X5.  A file that is read and whose text holds no bracket and no
    backtick passes every script.  It gets no count message, no
    positional diagnostic from either scanner, bracket totals that are
    all zero and no pattern from [find_common_patterns]; so the loop of
    check_brackets.py prints it as OK, [main] of
    detailed_bracket_check.py finds no issue in it, and the two count
    scripts do not flag it. *)
Theorem X5_plain_file_passes (fs : filesystem) (fp : path) (text : str)
    (Hf : fs fp = Return text) (H : plain text = true) :
  (CheckBrackets.count_brackets (fs fp) = []
   /\ CheckBrackets.find_bracket_position_issues (fs fp) = []
   /\ DetailedBracketCheck.analyze_bracket_structure fp (fs fp)
      = {| DetailedBracketCheck.file := fp;
           DetailedBracketCheck.issues := [];
           DetailedBracketCheck.total_brackets :=
             Some {| DetailedBracketCheck.round := (0, 0);
                     DetailedBracketCheck.square := (0, 0);
                     DetailedBracketCheck.curly := (0, 0);
                     DetailedBracketCheck.backticks := 0 |} |}
   /\ CommonPatterns.find_common_patterns (fs fp) = []
   /\ FinalBracketCheck.critical_issues
        (FinalBracketCheck.check_file_detailed fp (fs fp)) = []
   /\ BracketCheck.issues (BracketCheck.check_file_brackets fp (fs fp)) = [])
  /\ headline_of fs fp = CheckBrackets.OK
  /\ has_issues fs fp = false
  /\ is_critical fs fp = false
  /\ count_flagged fs fp = false.
Proof.
  destruct (plain_text_clean fp text H) as (H1 & H2 & H3 & H4 & H5).
  assert (P : CommonPatterns.find_common_patterns (Return text) = []).
  { unfold CommonPatterns.find_common_patterns. cbn [bind].
    now apply plain_patterns_from, split_lines_plain. }
  unfold headline_of, has_issues, is_critical, count_flagged.
  rewrite Hf, P, H1, H2, H3, H4, H5. repeat split.
Qed.

Lemma X5_plain_file_passes_witness :
  (fun _ : path => Return (lit "return x;")) (lit "d.js")
  = Return (lit "return x;")
  /\ plain (lit "return x;") = true
  /\ headline_of (fun _ => Return (lit "return x;")) (lit "d.js")
     = CheckBrackets.OK
  /\ has_issues (fun _ => Return (lit "return x;")) (lit "d.js") = false.
Proof.
  split; [reflexivity|]. split; [reflexivity|].
  destruct (@X5_plain_file_passes (fun _ => Return (lit "return x;"))
              (lit "d.js") (lit "return x;") eq_refl eq_refl)
    as (_ & H2 & H3 & _).
  split; [exact H2 | exact H3].
Defined.

End MoreOnLines.
